(** * MoonAI: the interview call orchestrator

    A shallow embedding of the telephony callback handlers of
    [backend/server.js] and of the AI helpers of [interview.js]
    ([getAiResponse], [generateFinalScore], [getQnAResponse],
    [transcribeRecording]), with the properties of the session store,
    the conversation history, the failure paths and the temporary files.

    Conventions of the embedding:
    - the process-wide [interviews] map is a [gmap string Session];
    - an [async] handler is a computation in a state-and-exception monad
      [M]: the state carries the session store, the log of calls made to
      the outside world and the TwiML document under construction; an
      exception that leaves a handler is an unhandled rejection: no
      response is sent and, nothing catching it, the process exits (see
      [deliver_all]);
    - every collaborator that lives outside the two files (Twilio, OpenAI,
      the audio helpers, [getInterviewPrompt], [JSON.parse], the clock) is
      a field of the environment [Env], free to succeed or to throw;
    - one handler runs to completion before the next one starts: the
      interleaving of two handlers at an [await] is not modelled;
    - [console.log] and [console.error] are not part of the modelled world. *)

From Stdlib Require Import ZArith QArith DecimalString.
From stdpp Require Import base strings list gmap.

Local Open Scope Z_scope.

(** ** Data *)

Module Data.

(** The [role] of a chat message. *)
Inductive Role := system | user | assistant.

(** [{role, content}]: an entry of [state.history] and of a chat prompt. *)
Record Message := { role : Role; content : string }.

(** The values the code assigns to [state.phase]. The code never stores
    an "ended" phase: a finished interview is a deleted session. *)
Inductive Phase := introduction | question1 | question2 | qna.

(** The object stored by [interviews.set] in [/make-call], with the three
    properties the later handlers add to it ([None]: absent or
    [undefined]). *)
Record Session := {
  jobRole : string;
  jobDescription : string;
  history : list Message;
  phase : Phase;
  candidatePhone : string;
  lastActivity : Z;
  recordingUrl : option string;
  answer1Url : option string;
  answer2Url : option string
}.

(** [state.phase = p] *)
Definition set_phase (p : Phase) (s : Session) : Session :=
  {| jobRole := jobRole s; jobDescription := jobDescription s;
     history := history s; phase := p;
     candidatePhone := candidatePhone s; lastActivity := lastActivity s;
     recordingUrl := recordingUrl s; answer1Url := answer1Url s;
     answer2Url := answer2Url s |}.

(** [state.recordingUrl = u] *)
Definition set_recordingUrl (u : option string) (s : Session) : Session :=
  {| jobRole := jobRole s; jobDescription := jobDescription s;
     history := history s; phase := phase s;
     candidatePhone := candidatePhone s; lastActivity := lastActivity s;
     recordingUrl := u; answer1Url := answer1Url s;
     answer2Url := answer2Url s |}.

(** [state.answer1Url = u] *)
Definition set_answer1Url (u : option string) (s : Session) : Session :=
  {| jobRole := jobRole s; jobDescription := jobDescription s;
     history := history s; phase := phase s;
     candidatePhone := candidatePhone s; lastActivity := lastActivity s;
     recordingUrl := recordingUrl s; answer1Url := u;
     answer2Url := answer2Url s |}.

(** [state.answer2Url = u] *)
Definition set_answer2Url (u : option string) (s : Session) : Session :=
  {| jobRole := jobRole s; jobDescription := jobDescription s;
     history := history s; phase := phase s;
     candidatePhone := candidatePhone s; lastActivity := lastActivity s;
     recordingUrl := recordingUrl s; answer1Url := answer1Url s;
     answer2Url := u |}.

(** [state.history.push(m)] *)
Definition push_history (m : Message) (s : Session) : Session :=
  {| jobRole := jobRole s; jobDescription := jobDescription s;
     history := history s ++ [m]; phase := phase s;
     candidatePhone := candidatePhone s; lastActivity := lastActivity s;
     recordingUrl := recordingUrl s; answer1Url := answer1Url s;
     answer2Url := answer2Url s |}.

(** Audio bytes. *)
Definition Buffer := list Byte.byte.

(** What the handlers hand to [transcribeAudio]: the converted buffer in
    [/process-intro], the recording URL itself in the later handlers. *)
Inductive AudioArg :=
| AudioBuffer (b : Buffer)
| AudioUrl (u : option string).

(** The argument of [openai.chat.completions.create]. *)
Record ChatRequest := {
  model : string;
  messages : list Message;
  response_format : option string;
  temperature : option Q
}.

(** A parsed JSON document. *)
#[local] Unset Elimination Schemes.
Inductive Json :=
| JNull
| JBool (b : bool)
| JNumber (q : Q)
| JString (s : string)
| JArray (l : list Json)
| JObject (l : list (string * Json)).
#[local] Set Elimination Schemes.

(** The attributes of a TwiML [<Record>]. *)
Record RecordAttrs := {
  action : string;
  maxLength : Z;
  finishOnKey : string;
  playBeep : bool;
  timeout : Z
}.

(** The verbs a handler adds to a [VoiceResponse], in order. *)
Inductive Verb :=
| Say (text : string)
| Play (digits : string)
| Record_ (attrs : RecordAttrs)
| Hangup.

(** An object of [candidates] in the body of [/make-call]. An element
    of the array that is [null] is [None] in the lists below. *)
Record Candidate := { phone : string }.

(** An element of [results] in the answer of [/make-call]. *)
Record CallResult := {
  success : bool;
  callSid : option string;
  res_phone : string;
  error : option string
}.

(** What a handler sends back. *)
Inductive Response :=
| SendXml (twiml : list Verb)
| SendStatus (code : Z) (body : string)
| SendJsonError (code : Z) (msg : string)
| SendJsonFailure (code : Z) (msg : string) (details : option string)
| SendJsonResults (results : list CallResult).

End Data.
Export Data.

(** ** Exceptions, the outside world and the handler monad *)

(** A thrown JavaScript error, by its message. *)
Definition Error := string.

Inductive Result (A : Type) :=
| Ok (a : A)
| Throw (e : Error).
Arguments Ok {A} a.
Arguments Throw {A} e.

(** A call that left the process. *)
Inductive Event :=
| EvDownloadAudio (url : option string)
| EvConvertAudio (b : Buffer)
| EvTranscribeAudio (a : AudioArg) (sid : string)
| EvChatCompletion (req : ChatRequest)
| EvCallsCreate (to url : string).

(** The collaborators of one request. [downloadAudio] is called by
    [/process-intro] but neither defined nor imported in [server.js];
    [transcribeAudio] is imported from the interview module, whose
    exports name [transcribeRecording] and no [transcribeAudio];
    [convertAudio] and [getInterviewPrompt] come from modules outside the
    two files. All of them are left to the environment, which may make
    them throw on every call; with the two files as they are, every call
    of [downloadAudio] and of [transcribeAudio] throws, which
    [as_shipped] below says of an environment. [encodeURIComponent]
    throws on a string that holds a lone surrogate. [getInterviewPrompt]
    is taken to build a new array on each call. *)
Record Env := {
  downloadAudio : option string → Result Buffer;
  convertAudio : Buffer → Result Buffer;
  transcribeAudio : AudioArg → string → Result string;
  getInterviewPrompt : string → string → list Message;
  chat_completions_create : ChatRequest → Result string;
  JSON_parse : string → Result Json;
  calls_create : string → string → Result string;
  encodeURIComponent : string → Result string;
  BACKEND_URL : string;
  NODE_ENV : option string;
  Date_now : nat → Z
}.

(** The state a handler runs in: the session store, the log of outside
    calls, and the [VoiceResponse] of the request in flight. *)
Record World := {
  interviews : gmap string Session;
  trace : list Event
}.

Record Frame := {
  world : World;
  twiml : list Verb
}.

Definition M (A : Type) : Type := Frame → Result A * Frame.

Definition ret {A} (a : A) : M A := fun f => (Ok a, f).

Definition bind {A B} (m : M A) (k : A → M B) : M B :=
  fun f => match m f with
           | (Ok a, f') => k a f'
           | (Throw e, f') => (Throw e, f')
           end.

Notation "'do' x <- c1 ;; c2" := (bind c1 (fun x => c2))
  (at level 10, x name, c1 at level 99, c2 at level 200,
   format "'[v' 'do'  x  <-  c1  ;;  '/' c2 ']'").

Definition throw {A} (e : Error) : M A := fun f => (Throw e, f).

(** [try { m } catch (error) { h error }] *)
Definition try_catch {A} (m : M A) (h : Error → M A) : M A :=
  fun f => match m f with
           | (Ok a, f') => (Ok a, f')
           | (Throw e, f') => h e f'
           end.

Definition on_store (g : gmap string Session → gmap string Session) : M unit :=
  fun f => (Ok tt,
            {| world := {| interviews := g (interviews (world f));
                           trace := trace (world f) |};
               twiml := twiml f |}).

(** [interviews.get(k)] *)
Definition interviews_get (k : string) : M (option Session) :=
  fun f => (Ok (interviews (world f) !! k), f).

(** [interviews.set(k, v)] *)
Definition interviews_set (k : string) (v : Session) : M unit :=
  on_store (insert k v).

(** [interviews.delete(k)] *)
Definition interviews_delete (k : string) : M unit :=
  on_store (delete k).

(** An assignment through the reference [state] obtained from
    [interviews.get(k)]: the object held by the map changes in place. *)
Definition mutate (k : string) (g : Session → Session) : M unit :=
  on_store (alter g k).

(** An awaited call to a collaborator: it is logged and it returns or
    throws as the environment decides. *)
Definition call {A} (ev : Event) (r : Result A) : M A :=
  fun f => (r,
            {| world := {| interviews := interviews (world f);
                           trace := trace (world f) ++ [ev] |};
               twiml := twiml f |}).

(** A computation that stays in the process: it returns or throws. *)
Definition lift_result {A} (r : Result A) : M A := fun f => (r, f).

(** [new twilio.twiml.VoiceResponse()] *)
Definition new_VoiceResponse : M unit :=
  fun f => (Ok tt, {| world := world f; twiml := [] |}).

Definition add_verb (v : Verb) : M unit :=
  fun f => (Ok tt, {| world := world f; twiml := twiml f ++ [v] |}).

(** [res.type('text/xml').send(twiml.toString())] *)
Definition send_twiml : M Response :=
  fun f => (Ok (SendXml (twiml f)), f).

(** Runs a handler on a world; the [VoiceResponse] is local to the run. *)
Definition run {A} (m : M A) (w : World) : Result A * World :=
  let '(r, f) := m {| world := w; twiml := [] |} in (r, world f).

(** ** [interview.js] *)

Module Interview.

(** The request [getAiResponse] builds: the persona messages of
    [getInterviewPrompt], then [conversationHistory] (when truthy), then
    the instruction [text] as a [user] turn. *)
Definition getAiResponse_request (env : Env) (text role_ jobDescription_ : string)
    (requestRating : bool) (conversationHistory : list Message)
    : ChatRequest :=
  let messages := getInterviewPrompt env role_ jobDescription_ in
  let messages := messages ++ conversationHistory in
  let messages := messages ++ [{| role := user; content := text |}] in
  {| model := "gpt-4";
     messages := messages;
     response_format := if requestRating then Some "json_object" else None;
     temperature := None |}.

(** [getAiResponse(text, role, jobDescription, requestRating,
    conversationHistory = [])]. An omitted [conversationHistory] is
    [None] and takes the default [[]]; the [catch] logs and rethrows. *)
Definition getAiResponse (env : Env) (text role_ jobDescription_ : string)
    (requestRating : bool) (conversationHistory : option (list Message))
    : M string :=
  let conversationHistory := default [] conversationHistory in
  try_catch
    (let req := getAiResponse_request env text role_ jobDescription_
                  requestRating conversationHistory in
     call (EvChatCompletion req) (chat_completions_create env req))
    (fun error => throw error).

Definition dq : string := String (Ascii.ascii_of_nat 34) EmptyString.
Definition nl : string := String (Ascii.ascii_of_nat 10) EmptyString.

(** The system message of [generateFinalScore]. *)
Definition scoring_system_content (role_ jobDescription_ : string) : string :=
  "You are an interview scoring system. Evaluate the candidate based on:" +:+ nl +:+
  "        - Technical Knowledge (0-10)" +:+ nl +:+
  "        - Communication Skills (0-10)" +:+ nl +:+
  "        " +:+ nl +:+
  "        Return your evaluation in this EXACT JSON format:" +:+ nl +:+
  "        {" +:+ nl +:+
  "          " +:+ dq +:+ "technicalScore" +:+ dq +:+ ": number," +:+ nl +:+
  "          " +:+ dq +:+ "communicationScore" +:+ dq +:+ ": number," +:+ nl +:+
  "          " +:+ dq +:+ "justification" +:+ dq +:+ ": string," +:+ nl +:+
  "          " +:+ dq +:+ "completionStatus" +:+ dq +:+ ": "
    +:+ dq +:+ "complete" +:+ dq +:+ "|"
    +:+ dq +:+ "partial" +:+ dq +:+ "|"
    +:+ dq +:+ "abrupt" +:+ dq +:+ nl +:+
  "        }" +:+ nl +:+
  "        " +:+ nl +:+
  "        Job Role: " +:+ role_ +:+ nl +:+
  "        Job Description: " +:+ jobDescription_.

(** The record returned by the [catch] of [generateFinalScore]. *)
Definition score_error_record : Json :=
  JObject [("technicalScore", JNumber 0);
           ("communicationScore", JNumber 0);
           ("justification", JString "Scoring failed due to system error");
           ("completionStatus", JString "error")].

(** The request [generateFinalScore] builds. *)
Definition generateFinalScore_request (conversationHistory : list Message)
    (role_ jobDescription_ : string) : ChatRequest :=
  let messages :=
    {| role := system;
       content := scoring_system_content role_ jobDescription_ |}
    :: conversationHistory in
  {| model := "gpt-4";
     messages := messages;
     response_format := None;
     temperature := Some (0.2)%Q |}.

(** [generateFinalScore(conversationHistory, role, jobDescription)] *)
Definition generateFinalScore (env : Env) (conversationHistory : list Message)
    (role_ jobDescription_ : string) : M Json :=
  try_catch
    (let req := generateFinalScore_request conversationHistory
                  role_ jobDescription_ in
     do jsonString <- call (EvChatCompletion req)
                           (chat_completions_create env req) ;;
     fun f => (JSON_parse env jsonString, f))
    (fun error => ret score_error_record).

End Interview.
Export Interview.

(** ** [server.js] *)

Module Server.

(** [!recordingUrl]: [undefined] and the empty string are falsy. *)
Definition falsy (v : option string) : bool :=
  match v with
  | None => true
  | Some s => bool_decide (s = "")
  end.

(** [digits === '#'] *)
Definition is_hash (digits : option string) : bool :=
  bool_decide (digits = Some "#").

(** [twiml.say(text)], [twiml.play({ digits })], [twiml.record({...})],
    [twiml.hangup()] *)
Definition twiml_say (text : string) : M unit := add_verb (Say text).
Definition twiml_play (digits : string) : M unit := add_verb (Play digits).
Definition twiml_record (a : RecordAttrs) : M unit := add_verb (Record_ a).
Definition twiml_hangup : M unit := add_verb Hangup.

(** The session seeded by [/make-call]. *)
Definition new_session (jobRole_ jobDescription_ phone_ : string) (now : Z)
    : Session :=
  {| jobRole := jobRole_; jobDescription := jobDescription_;
     history := []; phase := introduction;
     candidatePhone := phone_; lastActivity := now;
     recordingUrl := None; answer1Url := None; answer2Url := None |}.

(** The [url] given to [client.calls.create]. *)
Definition voice_url (env : Env) (jobRole_ jobDescription_ : string)
    : Result string :=
  match encodeURIComponent env jobRole_ with
  | Throw e => Throw e
  | Ok role_enc =>
    match encodeURIComponent env jobDescription_ with
    | Throw e => Throw e
    | Ok description_enc =>
      Ok ("https://" +:+ BACKEND_URL env +:+ "/voice?jobRole="
          +:+ role_enc +:+ "&jobDescription=" +:+ description_enc)
    end
  end.

Definition null_phone : Error :=
  "Cannot read properties of null (reading 'phone')".

(** [candidate.phone]: reading a property of [null] throws. *)
Definition candidate_phone (candidate : option Candidate) : M string :=
  match candidate with
  | Some c => ret (phone c)
  | None => throw null_phone
  end.

(** The body of [for (const candidate of candidates)] in [/make-call];
    [i] counts the candidates already handled and indexes the clock.
    The [try] reads [candidate.phone] for its log line before anything
    else, and the [catch] reads it again for its own: on a [null]
    element the second reading throws out of the loop. *)
Fixpoint make_call_loop (env : Env) (jobRole_ jobDescription_ : string)
    (i : nat) (candidates : list (option Candidate))
    (results : list CallResult) : M (list CallResult) :=
  match candidates with
  | [] => ret results
  | candidate :: rest =>
    do results <-
      try_catch
        (do phone_ <- candidate_phone candidate ;;
         do url <- lift_result (voice_url env jobRole_ jobDescription_) ;;
         do sid <- call (EvCallsCreate phone_ url)
                        (calls_create env phone_ url) ;;
         do _ <- interviews_set sid
                   (new_session jobRole_ jobDescription_ phone_
                                (Date_now env i)) ;;
         ret (results ++ [{| success := true; callSid := Some sid;
                             res_phone := phone_;
                             error := None |}]))
        (fun error_ =>
           do phone_ <- candidate_phone candidate ;;
           ret (results ++ [{| success := false; callSid := None;
                               res_phone := phone_;
                               error := Some error_ |}])) ;;
    make_call_loop env jobRole_ jobDescription_ (S i) rest results
  end.

(** [app.post("/make-call", ...)]. [candidates] is [None] when the body
    has no array under that name. *)
Definition make_call (env : Env) (jobRole_ jobDescription_ : string)
    (candidates : option (list (option Candidate))) : M Response :=
  try_catch
    (match candidates with
     | None | Some [] => ret (SendJsonError 400 "Invalid candidates data")
     | Some candidates =>
       do results <- make_call_loop env jobRole_ jobDescription_ 0
                                    candidates [] ;;
       ret (SendJsonResults results)
     end)
    (fun error_ =>
       ret (SendJsonFailure 500 "Call processing failed"
              (if bool_decide (NODE_ENV env = Some "development")
               then Some error_ else None))).

(** [app.post('/voice', ...)] *)
Definition voice (CallSid jobRole_ jobDescription_ : string) : M Response :=
  do _ <- new_VoiceResponse ;;
  let greeting := "Hello, this is an automated interview for the "
                  +:+ jobRole_
                  +:+ " position. Please introduce yourself after the beep." in
  do _ <- twiml_say greeting ;;
  do _ <- twiml_play "9" ;;
  do _ <- twiml_record {| action := "/process-intro?callSid=" +:+ CallSid;
                          maxLength := 60; finishOnKey := "#";
                          playBeep := true; timeout := 5 |} ;;
  send_twiml.

(** [app.post('/process-intro', ...)] *)
Definition process_intro (env : Env) (callSid_ : string)
    (recordingUrl_ : option string) : M Response :=
  do state <- interviews_get callSid_ ;;
  match state with
  | None => ret (SendStatus 404 "Call not found")
  | Some state =>
    do _ <- mutate callSid_ (set_recordingUrl recordingUrl_) ;;
    do _ <- mutate callSid_ (set_phase question1) ;;
    do _ <- try_catch
      (do audioBuffer <- call (EvDownloadAudio recordingUrl_)
                              (downloadAudio env recordingUrl_) ;;
       do wavBuffer <- call (EvConvertAudio audioBuffer)
                            (convertAudio env audioBuffer) ;;
       do transcription <-
          call (EvTranscribeAudio (AudioBuffer wavBuffer) callSid_)
               (transcribeAudio env (AudioBuffer wavBuffer) callSid_) ;;
       mutate callSid_
              (push_history {| role := user; content := transcription |}))
      (fun _ => ret tt) ;;
    do _ <- new_VoiceResponse ;;
    do aiResponse <- getAiResponse env "Ask first technical question"
                       (jobRole state) (jobDescription state) false None ;;
    do _ <- mutate callSid_
              (push_history {| role := assistant; content := aiResponse |}) ;;
    do _ <- twiml_say aiResponse ;;
    do _ <- twiml_play "9" ;;
    do _ <- twiml_record {| action := "/process-answer1?callSid=" +:+ callSid_;
                            maxLength := 120; finishOnKey := "#";
                            playBeep := true; timeout := 5 |} ;;
    send_twiml
  end.

(** [app.post('/process-answer1', ...)] *)
Definition process_answer1 (env : Env) (callSid_ : string)
    (recordingUrl_ : option string) : M Response :=
  do state <- interviews_get callSid_ ;;
  match state with
  | None => ret (SendStatus 404 "Call not found")
  | Some state =>
    do _ <- mutate callSid_ (set_answer1Url recordingUrl_) ;;
    do _ <- mutate callSid_ (set_phase question2) ;;
    do _ <- try_catch
      (do transcription <-
          call (EvTranscribeAudio (AudioUrl recordingUrl_) callSid_)
               (transcribeAudio env (AudioUrl recordingUrl_) callSid_) ;;
       mutate callSid_
              (push_history {| role := user; content := transcription |}))
      (fun _ => ret tt) ;;
    do _ <- new_VoiceResponse ;;
    do aiResponse <- getAiResponse env "Ask second technical question"
                       (jobRole state) (jobDescription state) false None ;;
    do _ <- mutate callSid_
              (push_history {| role := assistant; content := aiResponse |}) ;;
    do _ <- twiml_say aiResponse ;;
    do _ <- twiml_play "9" ;;
    do _ <- twiml_record {| action := "/process-answer2?callSid=" +:+ callSid_;
                            maxLength := 120; finishOnKey := "#";
                            playBeep := true; timeout := 5 |} ;;
    send_twiml
  end.

Definition qna_invitation : string :=
  "Thank you for your answers! Do you have any questions for me? If yes, please ask after the beep. If not, just stay silent or press # to end the call.".

(** [app.post('/process-answer2', ...)] *)
Definition process_answer2 (env : Env) (callSid_ : string)
    (recordingUrl_ : option string) : M Response :=
  do state <- interviews_get callSid_ ;;
  match state with
  | None => ret (SendStatus 404 "Call not found")
  | Some state =>
    do _ <- mutate callSid_ (set_answer2Url recordingUrl_) ;;
    do _ <- mutate callSid_ (set_phase qna) ;;
    do _ <- try_catch
      (do transcription <-
          call (EvTranscribeAudio (AudioUrl recordingUrl_) callSid_)
               (transcribeAudio env (AudioUrl recordingUrl_) callSid_) ;;
       mutate callSid_
              (push_history {| role := user; content := transcription |}))
      (fun _ => ret tt) ;;
    do _ <- new_VoiceResponse ;;
    do _ <- twiml_say qna_invitation ;;
    do _ <- twiml_play "9" ;;
    do _ <- twiml_record {| action := "/process-qna?callSid=" +:+ callSid_;
                            maxLength := 60; finishOnKey := "#";
                            playBeep := true; timeout := 5 |} ;;
    send_twiml
  end.

Definition closing_remark : string :=
  "Thank you for your time! We will review your answers and get back to you soon. Goodbye!".

Definition qna_followUp : string :=
  "Do you have any other questions? If yes, please ask after the beep. If not, just stay silent or press # to end the call.".

Definition qna_apology : string :=
  "Sorry, I encountered an error. Thank you for your time! Goodbye!".

(** [app.post('/process-qna', ...)] *)
Definition process_qna (env : Env) (callSid_ : string)
    (recordingUrl_ digits_ : option string) : M Response :=
  do state <- interviews_get callSid_ ;;
  match state with
  | None => ret (SendStatus 404 "Call not found")
  | Some state =>
    do _ <- new_VoiceResponse ;;
    if is_hash digits_ || falsy recordingUrl_ then
      do _ <- twiml_say closing_remark ;;
      do _ <- twiml_hangup ;;
      do _ <- interviews_delete callSid_ ;;
      send_twiml
    else
      do _ <- try_catch
        (do question <-
            call (EvTranscribeAudio (AudioUrl recordingUrl_) callSid_)
                 (transcribeAudio env (AudioUrl recordingUrl_) callSid_) ;;
         do _ <- mutate callSid_
                   (push_history {| role := user; content := question |}) ;;
         do aiResponse <- getAiResponse env
                            ("Answer this question: " +:+ question)
                            (jobRole state) (jobDescription state)
                            false None ;;
         do _ <- mutate callSid_
                   (push_history {| role := assistant;
                                    content := aiResponse |}) ;;
         do _ <- twiml_say aiResponse ;;
         do _ <- twiml_play "9" ;;
         do _ <- twiml_say qna_followUp ;;
         do _ <- twiml_play "9" ;;
         twiml_record {| action := "/process-qna?callSid=" +:+ callSid_;
                         maxLength := 60; finishOnKey := "#";
                         playBeep := true; timeout := 5 |})
        (fun _ =>
           do _ <- twiml_say qna_apology ;;
           do _ <- twiml_hangup ;;
           interviews_delete callSid_) ;;
      send_twiml
  end.

(** A callback of the telephony provider: the route with the fields of
    the query string and of the body the handler reads. *)
Inductive Callback :=
| Voice (CallSid jobRole_ jobDescription_ : string)
| ProcessIntro (callSid_ : string) (RecordingUrl : option string)
| ProcessAnswer1 (callSid_ : string) (RecordingUrl : option string)
| ProcessAnswer2 (callSid_ : string) (RecordingUrl : option string)
| ProcessQna (callSid_ : string) (RecordingUrl Digits : option string).

Definition handler (env : Env) (cb : Callback) : M Response :=
  match cb with
  | Voice sid r d => voice sid r d
  | ProcessIntro sid u => process_intro env sid u
  | ProcessAnswer1 sid u => process_answer1 env sid u
  | ProcessAnswer2 sid u => process_answer2 env sid u
  | ProcessQna sid u d => process_qna env sid u d
  end.

(** One callback delivered to the server. *)
Definition deliver (env : Env) (cb : Callback) (w : World)
    : Result Response * World :=
  run (handler env cb) w.

(** A sequence of callbacks, each with the outside world it meets.
    No route catches the rejection of its handler and the process
    installs no handler for it: when a handler rejects, the process
    exits. The store, which lives in its memory, is lost, and the
    callbacks that follow are not served by it; a process started anew
    would answer them from an empty store, which leaves the same
    world. *)
Fixpoint deliver_all (cbs : list (Env * Callback)) (w : World) : World :=
  match cbs with
  | [] => w
  | (env, cb) :: rest =>
    match deliver env cb w with
    | (Ok _, w') => deliver_all rest w'
    | (Throw _, w') => {| interviews := ∅; trace := trace w' |}
    end
  end.

(** Whether every callback of a sequence gets its answer, that is, no
    handler rejects and the process is still up at the end. *)
Fixpoint all_answered (cbs : list (Env * Callback)) (w : World) : bool :=
  match cbs with
  | [] => true
  | (env, cb) :: rest =>
    match deliver env cb w with
    | (Ok _, w') => all_answered rest w'
    | (Throw _, _) => false
    end
  end.

(** The handlers that look a session up: those after [/voice]. *)
Definition lookup_key (cb : Callback) : option string :=
  match cb with
  | Voice _ _ _ => None
  | ProcessIntro sid _ | ProcessAnswer1 sid _ | ProcessAnswer2 sid _
  | ProcessQna sid _ _ => Some sid
  end.

End Server.
Export Server.

(** ** The vocabulary of the properties *)

Module Vocabulary.

(** The place of a phase in [introduction, question1, question2, qna];
    a destroyed session stands for the end of the interview. *)
Definition phase_rank (p : Phase) : nat :=
  match p with
  | introduction => 0
  | question1 => 1
  | question2 => 2
  | qna => 3
  end.

Definition ended_rank : nat := 4.

Definition session_rank (o : option Session) : nat :=
  match o with
  | Some s => phase_rank (phase s)
  | None => ended_rank
  end.

(** The phase a handler assigns, whatever the phase it finds. *)
Definition target_phase (cb : Callback) : option Phase :=
  match cb with
  | ProcessIntro _ _ => Some question1
  | ProcessAnswer1 _ _ => Some question2
  | ProcessAnswer2 _ _ => Some qna
  | Voice _ _ _ | ProcessQna _ _ _ => None
  end.

(** A callback is in order for a session when the session is not yet
    past the phase the handler assigns. *)
Definition in_order (cb : Callback) (s : Session) : Prop :=
  match target_phase cb with
  | Some p => (phase_rank (phase s) ≤ phase_rank p)%nat
  | None => True
  end.

(** The outcome of the transcription attempt of a handler, as its [try]
    block chains the collaborators. *)
Definition transcription (env : Env) (cb : Callback) : option (Result string) :=
  match cb with
  | Voice _ _ _ => None
  | ProcessIntro sid u =>
    Some match downloadAudio env u with
         | Throw e => Throw e
         | Ok audioBuffer =>
           match convertAudio env audioBuffer with
           | Throw e => Throw e
           | Ok wavBuffer => transcribeAudio env (AudioBuffer wavBuffer) sid
           end
         end
  | ProcessAnswer1 sid u | ProcessAnswer2 sid u | ProcessQna sid u _ =>
    Some (transcribeAudio env (AudioUrl u) sid)
  end.

(** The calls made while attempting the transcription of [/process-intro]. *)
Definition intro_attempt (env : Env) (sid : string) (u : option string)
    : list Event :=
  EvDownloadAudio u ::
  match downloadAudio env u with
  | Throw _ => []
  | Ok audioBuffer =>
    EvConvertAudio audioBuffer ::
    match convertAudio env audioBuffer with
    | Throw _ => []
    | Ok wavBuffer => [EvTranscribeAudio (AudioBuffer wavBuffer) sid]
    end
  end.

(** The session after the [try] block around the transcription: the
    transcript is pushed as a [user] entry when there is one. *)
Definition with_user (r : Result string) (s : Session) : Session :=
  match r with
  | Ok transcription_ =>
    push_history {| role := user; content := transcription_ |} s
  | Throw _ => s
  end.

(** The request a handler sends for a session: [getAiResponse] called
    with three arguments. *)
Definition handler_request (env : Env) (text : string) (s : Session)
    : ChatRequest :=
  getAiResponse_request env text (jobRole s) (jobDescription s) false [].

(** The [<Record>] that chains to the next callback. *)
Definition record_to (path sid : string) (len : Z) : Verb :=
  Record_ {| action := path +:+ sid; maxLength := len; finishOnKey := "#";
             playBeep := true; timeout := 5 |}.

(** Provider error or parse failure inside [generateFinalScore]. *)
Definition scoring_fails (env : Env) (conversationHistory : list Message)
    (role_ jobDescription_ : string) : bool :=
  match chat_completions_create env
          (generateFinalScore_request conversationHistory role_ jobDescription_)
  with
  | Throw _ => true
  | Ok jsonString =>
    match JSON_parse env jsonString with
    | Throw _ => true
    | Ok _ => false
    end
  end.

(** What the assignments of the handlers leave of a session: the history
    only grows at its end, and the fields set by [/make-call] other than
    [phase] keep their values. *)
Record evolves (s s' : Session) : Prop := {
  ev_history : history s `prefix_of` history s';
  ev_lastActivity : lastActivity s' = lastActivity s;
  ev_jobRole : jobRole s' = jobRole s;
  ev_jobDescription : jobDescription s' = jobDescription s;
  ev_candidatePhone : candidatePhone s' = candidatePhone s
}.

End Vocabulary.
Export Vocabulary.

(** ** Concrete worlds *)

Module Fixtures.

(** An outside world where every collaborator answers; the clock reads
    [now]. *)
Definition env_ok (now : Z) : Env :=
  {| downloadAudio := fun _ => Ok [];
     convertAudio := fun b => Ok b;
     transcribeAudio := fun _ _ => Ok "I have built REST services.";
     getInterviewPrompt := fun r d =>
       [{| role := system;
           content := "You are interviewing for " +:+ r +:+ ": " +:+ d |}];
     chat_completions_create := fun _ => Ok "What is a mutex?";
     JSON_parse := fun _ => Ok JNull;
     calls_create := fun _ _ => Ok "CA1";
     encodeURIComponent := fun s => Ok s;
     BACKEND_URL := "moon.example";
     NODE_ENV := Some "production";
     Date_now := fun _ => now |}.

(** The speech-to-text provider is down. *)
Definition env_no_transcript : Env :=
  {| downloadAudio := downloadAudio (env_ok 2000);
     convertAudio := convertAudio (env_ok 2000);
     transcribeAudio := fun _ _ => Throw "transcription failed";
     getInterviewPrompt := getInterviewPrompt (env_ok 2000);
     chat_completions_create := chat_completions_create (env_ok 2000);
     JSON_parse := JSON_parse (env_ok 2000);
     calls_create := calls_create (env_ok 2000);
     encodeURIComponent := encodeURIComponent (env_ok 2000);
     BACKEND_URL := BACKEND_URL (env_ok 2000);
     NODE_ENV := NODE_ENV (env_ok 2000);
     Date_now := Date_now (env_ok 2000) |}.

(** The chat-completion provider is down. *)
Definition env_no_ai : Env :=
  {| downloadAudio := downloadAudio (env_ok 2000);
     convertAudio := convertAudio (env_ok 2000);
     transcribeAudio := transcribeAudio (env_ok 2000);
     getInterviewPrompt := getInterviewPrompt (env_ok 2000);
     chat_completions_create := fun _ => Throw "503 Service Unavailable";
     JSON_parse := JSON_parse (env_ok 2000);
     calls_create := calls_create (env_ok 2000);
     encodeURIComponent := encodeURIComponent (env_ok 2000);
     BACKEND_URL := BACKEND_URL (env_ok 2000);
     NODE_ENV := NODE_ENV (env_ok 2000);
     Date_now := Date_now (env_ok 2000) |}.

(** The chat-completion provider answers with text that is not JSON. *)
Definition env_bad_json : Env :=
  {| downloadAudio := downloadAudio (env_ok 2000);
     convertAudio := convertAudio (env_ok 2000);
     transcribeAudio := transcribeAudio (env_ok 2000);
     getInterviewPrompt := getInterviewPrompt (env_ok 2000);
     chat_completions_create := fun _ => Ok "The candidate did well.";
     JSON_parse := fun _ => Throw "Unexpected token T in JSON at position 0";
     calls_create := calls_create (env_ok 2000);
     encodeURIComponent := encodeURIComponent (env_ok 2000);
     BACKEND_URL := BACKEND_URL (env_ok 2000);
     NODE_ENV := NODE_ENV (env_ok 2000);
     Date_now := Date_now (env_ok 2000) |}.

Definition empty_world : World := {| interviews := ∅; trace := [] |}.

Definition backend_candidate : Candidate := {| phone := "+15550100" |}.

(** The world after [/make-call] for one candidate at time [1000]. *)
Definition world_called : World :=
  (run (make_call (env_ok 1000) "Backend Engineer" "Design and run APIs"
                  (Some [Some backend_candidate])) empty_world).2.

(** Call [CA1] after its introduction and both answers: phase [qna]. *)
Definition world_in_qna : World :=
  deliver_all [(env_ok 1100, ProcessIntro "CA1" (Some "https://rec/1"));
               (env_ok 1200, ProcessAnswer1 "CA1" (Some "https://rec/2"));
               (env_ok 1300, ProcessAnswer2 "CA1" (Some "https://rec/3"))]
              world_called.

(** The session of call [CA1] in [world_called]. *)
Definition session_called : Session :=
  new_session "Backend Engineer" "Design and run APIs" "+15550100" 1000.

(** Call [CA1] after its introduction. *)
Definition world_after_intro : World :=
  (deliver (env_ok 1100) (ProcessIntro "CA1" (Some "https://rec/1"))
           world_called).2.

Definition session_after_intro : Session :=
  {| jobRole := "Backend Engineer"; jobDescription := "Design and run APIs";
     history := [{| role := user; content := "I have built REST services." |};
                 {| role := assistant; content := "What is a mutex?" |}];
     phase := question1;
     candidatePhone := "+15550100"; lastActivity := 1000;
     recordingUrl := Some "https://rec/1";
     answer1Url := None; answer2Url := None |}.

(** The session of call [CA1] in [world_in_qna]. *)
Definition session_in_qna : Session :=
  {| jobRole := "Backend Engineer"; jobDescription := "Design and run APIs";
     history := [{| role := user; content := "I have built REST services." |};
                 {| role := assistant; content := "What is a mutex?" |};
                 {| role := user; content := "I have built REST services." |};
                 {| role := assistant; content := "What is a mutex?" |};
                 {| role := user; content := "I have built REST services." |}];
     phase := qna;
     candidatePhone := "+15550100"; lastActivity := 1000;
     recordingUrl := Some "https://rec/1";
     answer1Url := Some "https://rec/2";
     answer2Url := Some "https://rec/3" |}.

(** The two answers that follow the introduction. *)
Definition two_answers : list (Env * Callback) :=
  [(env_ok 1200, ProcessAnswer1 "CA1" (Some "https://rec/2"));
   (env_ok 1300, ProcessAnswer2 "CA1" (Some "https://rec/3"))].

End Fixtures.
Export Fixtures.

(** ** [interview.js], continued: [getQnAResponse] *)

Module QnA.

Definition qna_system_content : string :=
  "You are an interviewer. Answer the candidate's question directly and professionally without adding additional questions or prompts.".

(** The sentence [getQnAResponse] returns from its [catch]. *)
Definition qna_fallback : string :=
  "Thank you for your question. We'll follow up with more details later.".

(** The request [getQnAResponse] builds: the system message, the
    conversation history, the question as a [user] turn. *)
Definition getQnAResponse_request (question : string)
    (conversationHistory : list Message) : ChatRequest :=
  let messages :=
    {| role := system; content := qna_system_content |}
    :: conversationHistory ++ [{| role := user; content := question |}] in
  {| model := "gpt-4";
     messages := messages;
     response_format := None;
     temperature := Some (0.3)%Q |}.

(** [getQnAResponse(question, conversationHistory = [])]: the [catch]
    logs and returns [qna_fallback]. *)
Definition getQnAResponse (env : Env) (question : string)
    (conversationHistory : option (list Message)) : M string :=
  let conversationHistory := default [] conversationHistory in
  try_catch
    (let req := getQnAResponse_request question conversationHistory in
     call (EvChatCompletion req) (chat_completions_create env req))
    (fun _ => ret qna_fallback).

End QnA.
Export QnA.

(** ** What is observed of [/make-call] and of the answers *)

Module Observations.

(** The candidates the loop of [/make-call] reaches: the elements that
    come before the first [null] of the array. *)
Fixpoint reached (raw : list (option Candidate)) : list Candidate :=
  match raw with
  | Some c :: rest => c :: reached rest
  | _ => []
  end.

(** Whether no element of the array is [null]. *)
Fixpoint all_objects (raw : list (option Candidate)) : bool :=
  match raw with
  | [] => true
  | Some _ :: rest => all_objects rest
  | None :: _ => false
  end.

(** The outcome of the call asked for a candidate: the error of the
    encoding of the URL when there is one, else what the telephony
    provider answers. *)
Definition placing (env : Env) (jobRole_ jobDescription_ : string)
    (c : Candidate) : Result string :=
  match voice_url env jobRole_ jobDescription_ with
  | Throw e => Throw e
  | Ok url => calls_create env (phone c) url
  end.

(** The entry of [results] for one candidate: it depends on the outcome
    of that candidate's own call only. *)
Definition call_outcome (env : Env) (jobRole_ jobDescription_ : string)
    (c : Candidate) : CallResult :=
  match placing env jobRole_ jobDescription_ c with
  | Ok sid => {| success := true; callSid := Some sid;
                 res_phone := phone c; error := None |}
  | Throw e => {| success := false; callSid := None;
                  res_phone := phone c; error := Some e |}
  end.

(** The identifier of the call placed for a candidate, if it was placed. *)
Definition placed_sid (env : Env) (jobRole_ jobDescription_ : string)
    (c : Candidate) : option string :=
  match placing env jobRole_ jobDescription_ c with
  | Ok sid => Some sid
  | Throw _ => None
  end.

(** The store after the loop of [/make-call] has run over [cs], the
    first of which is the [i]-th candidate of the request. *)
Fixpoint seeded (env : Env) (jobRole_ jobDescription_ : string) (i : nat)
    (cs : list Candidate) (m : gmap string Session) : gmap string Session :=
  match cs with
  | [] => m
  | c :: rest =>
    seeded env jobRole_ jobDescription_ (S i) rest
      match placed_sid env jobRole_ jobDescription_ c with
      | Some sid =>
        <[sid := new_session jobRole_ jobDescription_ (phone c)
                             (Date_now env i)]> m
      | None => m
      end
  end.

(** The outbound calls requested for the candidates [cs]: one each, in
    order, unless the URL cannot be encoded. *)
Definition call_events (env : Env) (jobRole_ jobDescription_ : string)
    (cs : list Candidate) : list Event :=
  match voice_url env jobRole_ jobDescription_ with
  | Ok url => map (fun c => EvCallsCreate (phone c) url) cs
  | Throw _ => []
  end.

(** The [details] of the answer [500]. *)
Definition failure_details (env : Env) (e : Error) : option string :=
  if bool_decide (NODE_ENV env = Some "development") then Some e else None.

(** The two files as they are: [downloadAudio] is not defined and
    [transcribeAudio] is not a function, so that every call of either
    throws. *)
Definition as_shipped (env : Env) : Prop :=
  (∀ u, ∃ e, downloadAudio env u = Throw e) ∧
  (∀ a sid, ∃ e, transcribeAudio env a sid = Throw e).

(** The [user] entry a transcription attempt contributes. *)
Definition heard (r : option (Result string)) : list Message :=
  match r with
  | Some (Ok t) => [{| role := user; content := t |}]
  | _ => []
  end.

(** The [action] of the [<Record>] with which a handler hands the call
    over to the next route. *)
Definition next_action (cb : Callback) : string :=
  match cb with
  | Voice sid _ _ => "/process-intro?callSid=" +:+ sid
  | ProcessIntro sid _ => "/process-answer1?callSid=" +:+ sid
  | ProcessAnswer1 sid _ => "/process-answer2?callSid=" +:+ sid
  | ProcessAnswer2 sid _ => "/process-qna?callSid=" +:+ sid
  | ProcessQna sid _ _ => "/process-qna?callSid=" +:+ sid
  end.

(** The seconds of recording a handler allows for what comes next: two
    minutes for the answer to a technical question, one otherwise. *)
Definition next_maxLength (cb : Callback) : Z :=
  match cb with
  | ProcessIntro _ _ | ProcessAnswer1 _ _ => 120
  | Voice _ _ _ | ProcessAnswer2 _ _ | ProcessQna _ _ _ => 60
  end.

(** Whether a callback is [/process-qna] for the call [sid]. *)
Definition is_qna_for (sid : string) (cb : Callback) : bool :=
  match cb with
  | ProcessQna k _ _ => bool_decide (k = sid)
  | _ => false
  end.

End Observations.
Export Observations.

(** ** More concrete worlds *)

Module MoreFixtures.

(** Only the first candidate can be reached. *)
Definition env_one_busy : Env :=
  {| downloadAudio := downloadAudio (env_ok 1000);
     convertAudio := convertAudio (env_ok 1000);
     transcribeAudio := transcribeAudio (env_ok 1000);
     getInterviewPrompt := getInterviewPrompt (env_ok 1000);
     chat_completions_create := chat_completions_create (env_ok 1000);
     JSON_parse := JSON_parse (env_ok 1000);
     calls_create := fun to _ =>
       if bool_decide (to = "+15550100") then Ok "CA1"
       else Throw "The number is not reachable";
     encodeURIComponent := encodeURIComponent (env_ok 1000);
     BACKEND_URL := BACKEND_URL (env_ok 1000);
     NODE_ENV := NODE_ENV (env_ok 1000);
     Date_now := fun i => 1000 + Z.of_nat i |}.

Definition busy_candidate : Candidate := {| phone := "+15550199" |}.

(** A request whose second element is [null]. *)
Definition request_with_null : list (option Candidate) :=
  [Some backend_candidate; None; Some busy_candidate].

(** The outside world of the two files as they are: [downloadAudio] is
    not defined, [transcribeAudio] is not a function; the chat provider
    answers. *)
Definition env_shipped : Env :=
  {| downloadAudio := fun _ => Throw "downloadAudio is not defined";
     convertAudio := convertAudio (env_ok 1000);
     transcribeAudio := fun _ _ => Throw "transcribeAudio is not a function";
     getInterviewPrompt := getInterviewPrompt (env_ok 1000);
     chat_completions_create := chat_completions_create (env_ok 1000);
     JSON_parse := JSON_parse (env_ok 1000);
     calls_create := calls_create (env_ok 1000);
     encodeURIComponent := encodeURIComponent (env_ok 1000);
     BACKEND_URL := BACKEND_URL (env_ok 1000);
     NODE_ENV := NODE_ENV (env_ok 1000);
     Date_now := Date_now (env_ok 1000) |}.

(** Call [CA1] in [qna] and call [CA2] just placed. *)
Definition world_two_calls : World :=
  {| interviews := <["CA2" := session_called]> (interviews world_in_qna);
     trace := trace world_in_qna |}.

(** A store that holds call [CA2] only. *)
Definition world_other_call : World :=
  {| interviews := {[ "CA2" := session_called ]}; trace := [] |}.

(** Call [CA1] in [qna] as the two files bring it there: no recording
    was transcribed. *)
Definition world_in_qna_shipped : World :=
  deliver_all [(env_shipped, ProcessIntro "CA1" (Some "https://rec/1"));
               (env_shipped, ProcessAnswer1 "CA1" (Some "https://rec/2"));
               (env_shipped, ProcessAnswer2 "CA1" (Some "https://rec/3"))]
              world_called.

Definition session_in_qna_shipped : Session :=
  {| jobRole := "Backend Engineer"; jobDescription := "Design and run APIs";
     history := [{| role := assistant; content := "What is a mutex?" |};
                 {| role := assistant; content := "What is a mutex?" |}];
     phase := qna;
     candidatePhone := "+15550100"; lastActivity := 1000;
     recordingUrl := Some "https://rec/1";
     answer1Url := Some "https://rec/2";
     answer2Url := Some "https://rec/3" |}.

(** A request for two candidates, the unreachable one first. *)
Definition two_candidates : list Candidate :=
  [busy_candidate; backend_candidate].

End MoreFixtures.
Export MoreFixtures.

(** ** [interview.js], continued: [transcribeRecording]

    The directory [call_recordings] is the only part of the file system
    the function touches. It is modelled by the names of the files it
    holds, [None] when the directory does not exist. The call identifier
    is taken to be free of path separators, so that the temporary file
    lies in that directory. [fs.unlink], which the code calls without
    waiting, is taken to have removed the file. *)

Module Recording.

(** The [data] stream of a download. *)
Definition Stream := list Byte.byte.

(** The directory [call_recordings]. *)
Definition Disk := option (gset string).

(** What happens to [response.data.pipe(fs.createWriteStream(path))]:
    the file is written ([finish]), the write stream fails ([error],
    leaving the file behind or not), or the read stream fails, which
    [pipe] does not forward: then neither event is emitted. *)
Inductive PipeOutcome :=
| Finish
| WriteError (e : Error) (leaves_file : bool)
| Stalls.

(** How the promise returned by an [async] function ends. *)
Inductive Settled :=
| Fulfilled (transcription : string)
| Rejected (e : Error)
| Pending.

(** The calls [transcribeRecording] makes. *)
Inductive RecEvent :=
| EvGet (attempt : nat) (url : string)
| EvDelay (ms : Z)
| EvMkdir
| EvPipe (name : string)
| EvWhisper (name : string).

Record RecEnv := {
  mkdirSync : Result unit;
  axios_get : nat → string → Result Stream;
  pipe_to_file : Stream → string → PipeOutcome;
  transcriptions_create : string → Result string;
  readdirSync_error : Error;
  rec_Date_now : Z
}.

(** [haystack.includes(needle)] *)
Fixpoint includes (needle haystack : string) : bool :=
  String.prefix needle haystack
  || match haystack with
     | EmptyString => false
     | String _ rest => includes needle rest
     end.

(** The name of the temporary file, [callSid_<Date.now()>.wav]. *)
Definition temp_name (callSid_ : string) (t : Z) : string :=
  callSid_ +:+ "_" +:+ NilZero.string_of_int (Z.to_int t) +:+ ".wav".

(** The retry loop, [for (let attempt = 1; attempt <= retries; attempt++)]:
    [remaining] is [retries - attempt + 1]. The result is the value of
    [response] when the loop is left, [None] for [undefined]. *)
Fixpoint download (env : RecEnv) (url : string) (delayMs : Z)
    (attempt remaining : nat) : Result (option Stream) * list RecEvent :=
  match remaining with
  | O => (Ok None, [])
  | S rest =>
    match axios_get env attempt url with
    | Ok response => (Ok (Some response), [EvGet attempt url])
    | Throw error_ =>
      match rest with
      | O => (Throw error_, [EvGet attempt url])
      | S _ =>
        let '(r, evs) := download env url delayMs (S attempt) rest in
        (r, EvGet attempt url :: EvDelay delayMs :: evs)
      end
    end
  end.

(** The sweep of the [catch] block: every file of the directory whose
    name includes the call identifier is removed. *)
Definition sweep (callSid_ : string) (files : gset string) : gset string :=
  filter (fun f => includes callSid_ f = false) files.

Definition undefined_data : Error :=
  "Cannot read properties of undefined (reading 'data')".

(** The [try] block of [transcribeRecording]. *)
Definition transcribe_body (env : RecEnv) (recordingUrl_ callSid_ : string)
    (retries : nat) (delayMs : Z) (disk : Disk)
    : Settled * Disk * list RecEvent :=
  match disk, mkdirSync env with
  | None, Throw e => (Rejected e, None, [EvMkdir])
  | _, _ =>
    let files := default ∅ disk in
    let made := match disk with Some _ => [] | None => [EvMkdir] end in
    let '(r, evs) := download env recordingUrl_ delayMs 1 retries in
    let evs := made ++ evs in
    match r with
    | Throw e => (Rejected e, Some files, evs)
    | Ok None => (Rejected undefined_data, Some files, evs)
    | Ok (Some response) =>
      let name := temp_name callSid_ (rec_Date_now env) in
      let evs := evs ++ [EvPipe name] in
      match pipe_to_file env response name with
      | Stalls => (Pending, Some (files ∪ {[name]}), evs)
      | WriteError e leaves =>
        (Rejected e, Some (if leaves then files ∪ {[name]} else files), evs)
      | Finish =>
        let evs := evs ++ [EvWhisper name] in
        match transcriptions_create env name with
        | Throw e => (Rejected e, Some (files ∪ {[name]}), evs)
        | Ok transcription =>
          (Fulfilled transcription, Some ((files ∪ {[name]}) ∖ {[name]}), evs)
        end
      end
    end
  end.

(** [transcribeRecording(recordingUrl, callSid, retries = 3,
    delayMs = 2000)]: the [catch] reads the directory, which throws when
    there is none, removes the files of the call and rethrows. *)
Definition transcribeRecording (env : RecEnv) (recordingUrl_ callSid_ : string)
    (retries : nat) (delayMs : Z) (disk : Disk)
    : Settled * Disk * list RecEvent :=
  match transcribe_body env recordingUrl_ callSid_ retries delayMs disk with
  | (Rejected error_, disk', evs) =>
    match disk' with
    | None => (Rejected (readdirSync_error env), None, evs)
    | Some files => (Rejected error_, Some (sweep callSid_ files), evs)
    end
  | settled => settled
  end.

Definition default_retries : nat := 3.
Definition default_delayMs : Z := 2000.

(** The log of [k] attempts of which only the last may have succeeded. *)
Fixpoint attempts_log (url : string) (delayMs : Z) (attempt k : nat)
    : list RecEvent :=
  match k with
  | O => []
  | S O => [EvGet attempt url]
  | S k' => EvGet attempt url :: EvDelay delayMs
            :: attempts_log url delayMs (S attempt) k'
  end.

Definition is_get (ev : RecEvent) : bool :=
  match ev with EvGet _ _ => true | _ => false end.

Definition is_delay (ev : RecEvent) : bool :=
  match ev with EvDelay _ => true | _ => false end.

Definition is_whisper (ev : RecEvent) : bool :=
  match ev with EvWhisper _ => true | _ => false end.

(** A provider that fails [k] times, then answers; the write and the
    transcription succeed or not as told. *)
Definition flaky (k : nat) (write : PipeOutcome) (whisper : Result string)
    : RecEnv :=
  {| mkdirSync := Ok tt;
     axios_get := fun attempt _ =>
       if bool_decide (attempt ≤ k)%nat then Throw "ECONNRESET"
       else Ok [];
     pipe_to_file := fun _ _ => write;
     transcriptions_create := fun _ => whisper;
     readdirSync_error := "ENOENT: no such file or directory, scandir";
     rec_Date_now := 1700000000000 |}.

(** The directory cannot be created. *)
Definition read_only_disk : RecEnv :=
  {| mkdirSync := Throw "EACCES: permission denied, mkdir";
     axios_get := fun _ _ => Ok [];
     pipe_to_file := fun _ _ => Finish;
     transcriptions_create := fun _ => Ok "Hello";
     readdirSync_error := "ENOENT: no such file or directory, scandir";
     rec_Date_now := 1700000000000 |}.

(** A directory with the leftovers of two other transcriptions. *)
Definition busy_dir : Disk :=
  Some {[ "CA1_1699999990000.wav"; "CA12_1699999995000.wav";
          "CA7_1699999999000.wav" ]}.

End Recording.
Export Recording.

(** ** Properties *)

(** *** Sessions under the mutations of the handlers *)

Lemma evolves_refl s : evolves s s.
Proof. by split. Qed.

Lemma evolves_trans s1 s2 s3 : evolves s1 s2 → evolves s2 s3 → evolves s1 s3.
Proof.
  intros [[k1 E1] ? ? ? ?] [[k2 E2] ? ? ? ?]; split; try congruence.
  exists (k1 ++ k2). by rewrite E2, E1, app_assoc.
Qed.

Lemma evolves_set_phase p s : evolves s (set_phase p s).
Proof. by split. Qed.

Lemma evolves_set_recordingUrl u s : evolves s (set_recordingUrl u s).
Proof. by split. Qed.

Lemma evolves_set_answer1Url u s : evolves s (set_answer1Url u s).
Proof. by split. Qed.

Lemma evolves_set_answer2Url u s : evolves s (set_answer2Url u s).
Proof. by split. Qed.

Lemma evolves_push_history m s : evolves s (push_history m s).
Proof. split; try done. simpl. by apply prefix_app_r. Qed.

Create HintDb session discriminated.
#[export] Hint Resolve evolves_refl evolves_set_phase evolves_set_recordingUrl
  evolves_set_answer1Url evolves_set_answer2Url evolves_push_history : session.
#[export] Hint Extern 3 (evolves _ (_ (_ ?s))) =>
  (eapply evolves_trans; [ | solve [eauto 2 with session] ]) : session.

Lemma phase_rank_bound p : (phase_rank p < ended_rank)%nat.
Proof. unfold ended_rank. destruct p; simpl; lia. Qed.

(** *** Running a handler *)

(** Unfolds a delivered callback down to the store operations. *)
Ltac unfold_handler :=
  unfold deliver, run, handler, voice, process_intro, process_answer1,
    process_answer2, process_qna, getAiResponse, twiml_say, twiml_play,
    twiml_record, twiml_hangup, send_twiml, add_verb, new_VoiceResponse,
    mutate, interviews_get, interviews_delete, interviews_set, on_store,
    call, try_catch, throw, bind, ret;
  simpl.

(** Looks up a key in a store built by [alter] and [delete]. *)
Ltac lookup_store :=
  repeat first
    [ rewrite lookup_alter_eq | rewrite lookup_delete_eq
    | rewrite lookup_alter_ne by done | rewrite lookup_delete_ne by done
    | match goal with
      | H : ?m !! ?k = _ |- context [?m !! ?k] => rewrite H
      end ].

(** Splits on every outcome the handler branches on, innermost first:
    the lookups in the store and the answers of the collaborators. *)
Ltac split_outcomes :=
  repeat first
    [ progress lookup_store
    | progress simpl
    | match goal with
      | H : ?x = _ |- context [match ?x with _ => _ end] => rewrite H
      | |- context [match ?x with _ => _ end] =>
        lazymatch x with
        | context [match _ with _ => _ end] => fail
        | _ => destruct x eqn:?
        end
      end ].

(** A callback leaves every session it finds either evolved, or
    untouched when it addresses another call, or destroyed, which only
    [/process-qna] on that very call does. *)
Lemma deliver_session env cb w sid s :
  interviews w !! sid = Some s →
  match interviews (deliver env cb w).2 !! sid with
  | Some s' => evolves s s' ∧ (lookup_key cb ≠ Some sid → s' = s)
  | None => ∃ u d, cb = ProcessQna sid u d
  end.
Proof.
  intros Hs. destruct cb as [? ? ?|k u|k u|k u|k u d]; simpl.
  1: { unfold_handler. rewrite Hs. auto with session. }
  all: destruct (decide (k = sid)) as [->|Hne]; unfold_handler; split_outcomes.
  all: try (split; [auto 7 with session | congruence]); eauto.
Qed.

(** *** The prompt *)

(** [getAiResponse] places the conversation history it is given between
    the persona messages and the instruction turn. *)
Lemma getAiResponse_request_messages env text r d rating h :
  messages (getAiResponse_request env text r d rating h)
  = getInterviewPrompt env r d ++ h ++ [{| role := user; content := text |}].
Proof. unfold getAiResponse_request. simpl. by rewrite app_assoc. Qed.

(** The handlers call it with three arguments: the history defaults to
    the empty array and the prompt is the persona followed by the
    instruction. *)
Lemma handler_request_messages env text s :
  messages (handler_request env text s)
  = getInterviewPrompt env (jobRole s) (jobDescription s)
    ++ [{| role := user; content := text |}].
Proof. unfold handler_request. by rewrite getAiResponse_request_messages. Qed.

(** *** What each handler does to the session it finds *)

Lemma process_intro_spec env sid u w s :
  interviews w !! sid = Some s →
  let r := match downloadAudio env u with
           | Throw e => Throw e
           | Ok audioBuffer =>
             match convertAudio env audioBuffer with
             | Throw e => Throw e
             | Ok wavBuffer => transcribeAudio env (AudioBuffer wavBuffer) sid
             end
           end in
  let s1 := with_user r (set_phase question1 (set_recordingUrl u s)) in
  let req := handler_request env "Ask first technical question" s in
  let out := deliver env (ProcessIntro sid u) w in
  trace out.2 = trace w ++ intro_attempt env sid u ++ [EvChatCompletion req] ∧
  match chat_completions_create env req with
  | Ok q =>
    out.1 = Ok (SendXml [Say q; Play "9";
                         record_to "/process-answer1?callSid=" sid 120]) ∧
    interviews out.2 !! sid
    = Some (push_history {| role := assistant; content := q |} s1)
  | Throw e =>
    out.1 = Throw e ∧ interviews out.2 !! sid = Some s1
  end.
Proof.
  intros Hs. unfold handler_request, intro_attempt, record_to.
  unfold_handler. split_outcomes.
  all: rewrite <- ?app_assoc; simpl; done.
Qed.

Lemma process_answer1_spec env sid u w s :
  interviews w !! sid = Some s →
  let r := transcribeAudio env (AudioUrl u) sid in
  let s1 := with_user r (set_phase question2 (set_answer1Url u s)) in
  let req := handler_request env "Ask second technical question" s in
  let out := deliver env (ProcessAnswer1 sid u) w in
  trace out.2 = trace w ++ [EvTranscribeAudio (AudioUrl u) sid;
                            EvChatCompletion req] ∧
  match chat_completions_create env req with
  | Ok q =>
    out.1 = Ok (SendXml [Say q; Play "9";
                         record_to "/process-answer2?callSid=" sid 120]) ∧
    interviews out.2 !! sid
    = Some (push_history {| role := assistant; content := q |} s1)
  | Throw e =>
    out.1 = Throw e ∧ interviews out.2 !! sid = Some s1
  end.
Proof.
  intros Hs. unfold handler_request, record_to.
  unfold_handler. split_outcomes.
  all: rewrite <- ?app_assoc; simpl; done.
Qed.

Lemma process_answer2_spec env sid u w s :
  interviews w !! sid = Some s →
  let r := transcribeAudio env (AudioUrl u) sid in
  let out := deliver env (ProcessAnswer2 sid u) w in
  trace out.2 = trace w ++ [EvTranscribeAudio (AudioUrl u) sid] ∧
  out.1 = Ok (SendXml [Say qna_invitation; Play "9";
                       record_to "/process-qna?callSid=" sid 60]) ∧
  interviews out.2 !! sid
  = Some (with_user r (set_phase qna (set_answer2Url u s))).
Proof.
  intros Hs. unfold record_to.
  unfold_handler. split_outcomes.
  all: done.
Qed.

Lemma process_qna_spec env sid u d w s :
  interviews w !! sid = Some s →
  is_hash d || falsy u = false →
  let out := deliver env (ProcessQna sid u d) w in
  match transcribeAudio env (AudioUrl u) sid with
  | Throw _ =>
    out = (Ok (SendXml [Say qna_apology; Hangup]),
           {| interviews := delete sid (interviews w);
              trace := trace w ++ [EvTranscribeAudio (AudioUrl u) sid] |})
  | Ok question =>
    let req := handler_request env ("Answer this question: " +:+ question) s in
    match chat_completions_create env req with
    | Throw _ =>
      out = (Ok (SendXml [Say qna_apology; Hangup]),
             {| interviews := delete sid (interviews w);
                trace := trace w ++ [EvTranscribeAudio (AudioUrl u) sid;
                                     EvChatCompletion req] |})
    | Ok answer =>
      out.1 = Ok (SendXml [Say answer; Play "9"; Say qna_followUp; Play "9";
                           record_to "/process-qna?callSid=" sid 60]) ∧
      interviews out.2 !! sid
      = Some (push_history {| role := assistant; content := answer |}
                (push_history {| role := user; content := question |} s)) ∧
      trace out.2 = trace w ++ [EvTranscribeAudio (AudioUrl u) sid;
                                EvChatCompletion req]
    end
  end.
Proof.
  intros Hs Hgo. unfold handler_request, record_to.
  unfold_handler. rewrite Hs. simpl. rewrite Hgo.
  split_outcomes.
  all: rewrite ?delete_alter_eq, <- ?app_assoc; simpl; done.
Qed.

(** [/make-call] for one candidate whose call is placed. *)
Lemma make_call_one env role_ jd cand w url sid :
  voice_url env role_ jd = Ok url →
  calls_create env (phone cand) url = Ok sid →
  run (make_call env role_ jd (Some [Some cand])) w
  = (Ok (SendJsonResults [{| success := true; callSid := Some sid;
                             res_phone := phone cand; error := None |}]),
     {| interviews :=
          <[sid := new_session role_ jd (phone cand) (Date_now env 0)]>
            (interviews w);
        trace := trace w ++ [EvCallsCreate (phone cand) url] |}).
Proof.
  intros Hu Hc. unfold run, make_call, make_call_loop, candidate_phone,
    lift_result, interviews_set, on_store, call, try_catch, bind, ret.
  simpl. by rewrite Hu, Hc.
Qed.

(** No callback creates a session: only [/make-call] does. *)
Lemma deliver_absent env cb w sid :
  interviews w !! sid = None →
  interviews (deliver env cb w).2 !! sid = None.
Proof.
  intros Hs. destruct cb as [? ? ?|k u|k u|k u|k u d]; simpl.
  1: { by unfold_handler. }
  all: destruct (decide (k = sid)) as [->|Hne]; unfold_handler; split_outcomes.
  all: done.
Qed.

Lemma deliver_all_absent cbs : ∀ w sid,
  interviews w !! sid = None →
  interviews (deliver_all cbs w) !! sid = None.
Proof.
  induction cbs as [|[env cb] cbs IH]; intros w sid Hs; simpl; [done|].
  pose proof (deliver_absent env cb w sid Hs) as Hstep.
  destruct (deliver env cb w) as [[r|e] w']; simpl in *.
  - by apply IH.
  - apply lookup_empty.
Qed.

(** The same over a sequence of callbacks: a session met at the start is
    either gone at the end or an evolution of what it was. *)
Lemma deliver_all_session cbs : ∀ w sid s,
  interviews w !! sid = Some s →
  match interviews (deliver_all cbs w) !! sid with
  | Some s' => evolves s s'
  | None => True
  end.
Proof.
  induction cbs as [|[env cb] cbs IH]; intros w sid s Hs; simpl.
  - rewrite Hs. auto with session.
  - pose proof (deliver_session env cb w sid s Hs) as Hstep.
    destruct (deliver env cb w) as [[r|e] w']; simpl in *.
    + destruct (interviews w' !! sid) as [s1|] eqn:E1.
      * destruct Hstep as [Hev _]. specialize (IH _ _ _ E1).
        destruct (interviews (deliver_all cbs w') !! sid);
          eauto using evolves_trans.
      * by rewrite (deliver_all_absent cbs _ _ E1).
    + by rewrite lookup_empty.
Qed.

(** *** The conversation history *)

(** C7: history is append-only. Over every sequence of callbacks, a
    session that is still in the store has a history at least as long as
    before, and every entry it had is still there, unchanged, at the same
    index; the only other outcome is that the whole session is gone. *)
Theorem C7_history_append_only cbs w sid s :
  interviews w !! sid = Some s →
  match interviews (deliver_all cbs w) !! sid with
  | Some s' =>
    (length (history s) ≤ length (history s'))%nat ∧
    ∀ i e, history s !! i = Some e → history s' !! i = Some e
  | None => True
  end.
Proof.
  intros Hs. pose proof (deliver_all_session cbs w sid s Hs) as H.
  destruct (interviews (deliver_all cbs w) !! sid) as [s'|]; [|done].
  destruct H as [Hpre _ _ _ _]. split.
  - by apply prefix_length.
  - intros i e Hi. by eapply prefix_lookup_Some.
Qed.

Lemma C7_history_append_only_witness :
  match interviews (deliver_all two_answers world_after_intro) !! "CA1" with
  | Some s' =>
    (length (history session_after_intro) ≤ length (history s'))%nat ∧
    ∀ i e, history session_after_intro !! i = Some e →
           history s' !! i = Some e
  | None => True
  end.
Proof.
  apply (C7_history_append_only two_answers world_after_intro "CA1"
           session_after_intro).
  vm_compute. reflexivity.
Defined.

(** *** The activity timestamp *)

(** C9, as the code has it: [lastActivity] is written once, by
    [/make-call]; no callback handler updates it, so over every sequence
    of callbacks a session keeps the timestamp of its creation. *)
Theorem C9_lastActivity_set_at_creation_only cbs w sid s s' :
  interviews w !! sid = Some s →
  interviews (deliver_all cbs w) !! sid = Some s' →
  lastActivity s' = lastActivity s.
Proof.
  intros Hs Hs'. pose proof (deliver_all_session cbs w sid s Hs) as H.
  rewrite Hs' in H. by destruct H.
Qed.

Lemma C9_lastActivity_set_at_creation_only_witness :
  lastActivity session_after_intro = lastActivity session_called.
Proof.
  apply (C9_lastActivity_set_at_creation_only
           [(env_ok 1100, ProcessIntro "CA1" (Some "https://rec/1"))]
           world_called "CA1" session_called session_after_intro).
  - vm_compute. reflexivity.
  - vm_compute. reflexivity.
Defined.

(** C9, as stated, fails: the introduction callback of call [CA1]
    arrives at time [1100], and the session still carries the [1000] of
    its creation. *)
Lemma C9_lastActivity_not_updated :
  let env := env_ok 1100 in
  let cb := ProcessIntro "CA1" (Some "https://rec/1") in
  ∃ s s',
    interviews world_called !! "CA1" = Some s ∧
    interviews (deliver env cb world_called).2 !! "CA1" = Some s' ∧
    Date_now env 0 = 1100 ∧
    lastActivity s' = 1000 ∧
    lastActivity s' ≠ Date_now env 0.
Proof.
  exists session_called, session_after_intro.
  repeat split; try (vm_compute; reflexivity).
  vm_compute. discriminate.
Qed.

(** *** Unknown call identifiers *)

(** C6: a handler after [/voice] that finds no session under the call
    identifier answers [404 Call not found] and changes nothing: the
    store, every session in it and the log of outside calls are as
    before, and no TwiML is sent. *)
Theorem C6_unknown_call_not_found env cb w sid :
  lookup_key cb = Some sid →
  interviews w !! sid = None →
  deliver env cb w = (Ok (SendStatus 404 "Call not found"), w).
Proof.
  intros Hk Hs. destruct w as [m tr]. simpl in Hs.
  destruct cb; simpl in Hk; try discriminate; injection Hk as ->.
  all: unfold_handler; by rewrite Hs.
Qed.

Lemma C6_unknown_call_not_found_witness :
  deliver env_no_ai (ProcessQna "CA404" (Some "https://rec/9") None)
          world_in_qna
  = (Ok (SendStatus 404 "Call not found"), world_in_qna).
Proof.
  apply (C6_unknown_call_not_found env_no_ai
           (ProcessQna "CA404" (Some "https://rec/9") None)
           world_in_qna "CA404").
  - reflexivity.
  - vm_compute. reflexivity.
Defined.

(** *** The end of the interview *)

(** C10: in [/process-qna] the terminator digit wins over a recording.
    With [Digits] equal to [#], whatever [RecordingUrl] holds, the answer
    is the closing remark and a hangup, the session is deleted, and
    nothing else happens: no call leaves the process (the recording is
    not transcribed, no AI request is made) and no other session
    changes. *)
Theorem C10_hash_wins_over_recording env sid u w s :
  interviews w !! sid = Some s →
  deliver env (ProcessQna sid u (Some "#")) w
  = (Ok (SendXml [Say closing_remark; Hangup]),
     {| interviews := delete sid (interviews w); trace := trace w |}).
Proof.
  intros Hs. unfold_handler. by rewrite Hs.
Qed.

Lemma C10_hash_wins_over_recording_witness :
  deliver (env_ok 1400) (ProcessQna "CA1" (Some "https://rec/4") (Some "#"))
          world_in_qna
  = (Ok (SendXml [Say closing_remark; Hangup]),
     {| interviews := delete "CA1" (interviews world_in_qna);
        trace := trace world_in_qna |}).
Proof.
  apply (C10_hash_wins_over_recording (env_ok 1400) "CA1"
           (Some "https://rec/4") world_in_qna session_in_qna).
  vm_compute. reflexivity.
Defined.

(** *** Scoring *)

(** C8: [generateFinalScore] never throws, and on a provider error or a
    parse failure it returns the record with both scores [0], the
    justification and [completionStatus] set to [error]. *)
Theorem C8_generateFinalScore_error_record env h r d f :
  (∃ v, (generateFinalScore env h r d f).1 = Ok v) ∧
  (scoring_fails env h r d = true →
   (generateFinalScore env h r d f).1 = Ok score_error_record).
Proof.
  unfold generateFinalScore, scoring_fails, try_catch, bind, call, ret.
  simpl.
  destruct (chat_completions_create env (generateFinalScore_request h r d))
    as [jsonString|e]; simpl.
  - destruct (JSON_parse env jsonString) as [v|e]; simpl; eauto.
    split; [eauto | discriminate].
  - eauto.
Qed.

Lemma C8_generateFinalScore_error_record_witness :
  (generateFinalScore env_bad_json (history session_after_intro)
     "Backend Engineer" "Design and run APIs"
     {| world := world_in_qna; twiml := [] |}).1
  = Ok score_error_record.
Proof.
  apply (C8_generateFinalScore_error_record env_bad_json
           (history session_after_intro)
           "Backend Engineer" "Design and run APIs"
           {| world := world_in_qna; twiml := [] |}).
  vm_compute. reflexivity.
Defined.

(** *** The phase *)

(** C1, as the code has it: a handler assigns its own phase without
    reading the current one ([/process-intro] sets [question1],
    [/process-answer1] sets [question2], [/process-answer2] sets [qna];
    [/process-qna] leaves the phase alone or destroys the session, and
    [/voice] touches nothing). So the phase of a session never moves
    backward under a callback that is in order for it, i.e. that arrives
    before the session is past the phase the handler assigns; sessions of
    other calls keep their phase. *)
Theorem C1_phase_forward_when_in_order env cb w sid s :
  interviews w !! sid = Some s →
  (lookup_key cb = Some sid → in_order cb s) →
  let after := interviews (deliver env cb w).2 !! sid in
  (phase_rank (phase s) ≤ session_rank after)%nat ∧
  (lookup_key cb = Some sid →
   match target_phase cb with
   | Some p => phase <$> after = Some p
   | None => after = None ∨ phase <$> after = Some (phase s)
   end) ∧
  (lookup_key cb ≠ Some sid → phase <$> after = Some (phase s)).
Proof.
  intros Hs Hord after. subst after.
  destruct cb as [? ? ?|k u|k u|k u|k u d]; simpl in *.
  1: { unfold_handler. rewrite Hs. simpl. repeat split; done. }
  all: destruct (decide (k = sid)) as [->|Hne];
    [ specialize (Hord eq_refl); unfold in_order in Hord; simpl in Hord | ];
    unfold_handler; split_outcomes.
  all: repeat split; auto; try congruence; try lia.
  all: pose proof (phase_rank_bound (phase s)); unfold ended_rank in *; lia.
Qed.

Lemma C1_phase_forward_when_in_order_witness :
  let after :=
    interviews (deliver (env_ok 1200)
                        (ProcessAnswer1 "CA1" (Some "https://rec/2"))
                        world_after_intro).2 !! "CA1" in
  (phase_rank (phase session_after_intro) ≤ session_rank after)%nat ∧
  (lookup_key (ProcessAnswer1 "CA1" (Some "https://rec/2")) = Some "CA1" →
   match target_phase (ProcessAnswer1 "CA1" (Some "https://rec/2")) with
   | Some p => phase <$> after = Some p
   | None => after = None ∨ phase <$> after = Some (phase session_after_intro)
   end) ∧
  (lookup_key (ProcessAnswer1 "CA1" (Some "https://rec/2")) ≠ Some "CA1" →
   phase <$> after = Some (phase session_after_intro)).
Proof.
  apply (C1_phase_forward_when_in_order (env_ok 1200)
           (ProcessAnswer1 "CA1" (Some "https://rec/2"))
           world_after_intro "CA1" session_after_intro).
  - vm_compute. reflexivity.
  - intros _. unfold in_order. simpl. lia.
Defined.

(** C1, as stated, fails: call [CA1] is in [qna]; a [/process-intro]
    callback for it (a late or repeated delivery) puts the session back
    in [question1]. *)
Lemma C1_late_callback_moves_phase_backward :
  let cb := ProcessIntro "CA1" (Some "https://rec/1") in
  ∃ s s',
    interviews world_in_qna !! "CA1" = Some s ∧
    interviews (deliver (env_ok 1400) cb world_in_qna).2 !! "CA1" = Some s' ∧
    phase s = qna ∧
    phase s' = question1 ∧
    (phase_rank (phase s') < phase_rank (phase s))%nat.
Proof.
  exists session_in_qna. eexists.
  split; [vm_compute; reflexivity|].
  split; [vm_compute; reflexivity|].
  simpl. repeat split. lia.
Qed.

(** *** The scripted interview *)

Lemma history_with_user r s :
  history (with_user r s) = history s ++ heard (Some r).
Proof. destruct r; simpl; [done | by rewrite app_nil_r]. Qed.

#[local] Arguments heard : simpl never.

Lemma phase_with_user r s : phase (with_user r s) = phase s.
Proof. by destruct r. Qed.

Lemma jobRole_with_user r s : jobRole (with_user r s) = jobRole s.
Proof. by destruct r. Qed.

Lemma jobDescription_with_user r s :
  jobDescription (with_user r s) = jobDescription s.
Proof. by destruct r. Qed.

(** Reads the fields of a session through the assignments made to it. *)
Ltac read_session :=
  repeat (simpl;
          rewrite ?history_with_user, ?phase_with_user, ?jobRole_with_user,
            ?jobDescription_with_user);
  simpl.

(** C2, as the code has it: a call is placed for one candidate, then the
    callbacks of the introduction and of the two answers are handled,
    both questions being generated. The session is created in
    [introduction] with an empty history. [/process-intro] and
    [/process-answer1] each push the transcript of the recording as a
    [user] entry, when the transcription yields one, and then the
    generated question as an [assistant] entry; [/process-answer2]
    pushes the transcript, when there is one, and nothing else, its
    invitation being a fixed sentence that is spoken but not recorded in
    the history. The session thus reaches [qna] with the two questions
    and one entry per recording that was transcribed: 5 entries when all
    three are (2 in [question1], 4 in [question2]), 2 when none is, and
    never 6. *)
Theorem C2_scripted_interview_history
    env0 env1 env2 env3 w0 role_ jd cand url sid u1 u2 u3 q1 q2 :
  voice_url env0 role_ jd = Ok url →
  calls_create env0 (phone cand) url = Ok sid →
  chat_completions_create env1
    (getAiResponse_request env1 "Ask first technical question"
       role_ jd false []) = Ok q1 →
  chat_completions_create env2
    (getAiResponse_request env2 "Ask second technical question"
       role_ jd false []) = Ok q2 →
  let w1 := (run (make_call env0 role_ jd (Some [Some cand])) w0).2 in
  let w2 := (deliver env1 (ProcessIntro sid u1) w1).2 in
  let w3 := (deliver env2 (ProcessAnswer1 sid u2) w2).2 in
  let w4 := (deliver env3 (ProcessAnswer2 sid u3) w3).2 in
  let h1 := heard (transcription env1 (ProcessIntro sid u1)) in
  let h2 := heard (transcription env2 (ProcessAnswer1 sid u2)) in
  let h3 := heard (transcription env3 (ProcessAnswer2 sid u3)) in
  (∃ s1, interviews w1 !! sid = Some s1 ∧
         phase s1 = introduction ∧ history s1 = []) ∧
  (∃ s2, interviews w2 !! sid = Some s2 ∧
         phase s2 = question1 ∧
         history s2 = h1 ++ [{| role := assistant; content := q1 |}]) ∧
  (∃ s3, interviews w3 !! sid = Some s3 ∧
         phase s3 = question2 ∧
         history s3 = h1 ++ [{| role := assistant; content := q1 |}]
                      ++ h2 ++ [{| role := assistant; content := q2 |}]) ∧
  (∃ s4, interviews w4 !! sid = Some s4 ∧
         phase s4 = qna ∧
         history s4 = h1 ++ [{| role := assistant; content := q1 |}]
                      ++ h2 ++ [{| role := assistant; content := q2 |}]
                      ++ h3 ∧
         length (history s4)
         = (2 + length h1 + length h2 + length h3)%nat ∧
         (2 ≤ length (history s4) ≤ 5)%nat).
Proof.
  intros Hu Hc Hq1 Hq2 w1 w2 w3 w4 h1 h2 h3.
  assert (H1 : interviews w1 !! sid
               = Some (new_session role_ jd (phone cand) (Date_now env0 0))).
  { subst w1. rewrite (make_call_one _ _ _ _ _ _ _ Hu Hc). simpl.
    apply lookup_insert_eq. }
  destruct (process_intro_spec env1 sid u1 w1 _ H1) as [_ H2].
  unfold handler_request in H2. simpl in H2.
  rewrite Hq1 in H2. destruct H2 as [_ H2]. fold w2 in H2.
  destruct (process_answer1_spec env2 sid u2 w2 _ H2) as [_ H3].
  unfold handler_request in H3. simpl in H3.
  rewrite jobRole_with_user, jobDescription_with_user in H3. simpl in H3.
  rewrite Hq2 in H3. destruct H3 as [_ H3]. fold w3 in H3.
  destruct (process_answer2_spec env3 sid u3 w3 _ H3) as (_ & _ & H4).
  simpl in H4. fold w4 in H4.
  assert (Hlen : ∀ r, (length (heard r) ≤ 1)%nat).
  { intros [[t|e]|]; unfold heard; simpl; lia. }
  pose proof (Hlen (transcription env1 (ProcessIntro sid u1))) as L1.
  pose proof (Hlen (transcription env2 (ProcessAnswer1 sid u2))) as L2.
  pose proof (Hlen (transcription env3 (ProcessAnswer2 sid u3))) as L3.
  fold h1 in L1. fold h2 in L2. fold h3 in L3.
  split; [eexists; split; [exact H1|]; by split|].
  split; [eexists; split; [exact H2|]; read_session; by split|].
  split.
  { eexists. split; [exact H3|]. read_session. split; [done|].
    subst h1 h2. simpl. by rewrite <- !app_assoc. }
  eexists. split; [exact H4|]. read_session. split; [done|].
  assert (E4 : ∀ (x y z : list Message) a b,
            (((([] ++ x) ++ [a]) ++ y) ++ [b]) ++ z
            = x ++ [a] ++ y ++ [b] ++ z).
  { intros. simpl. by rewrite <- !app_assoc. }
  change (heard (Some
            match downloadAudio env1 u1 with
            | Ok audioBuffer =>
              match convertAudio env1 audioBuffer with
              | Ok wavBuffer =>
                transcribeAudio env1 (AudioBuffer wavBuffer) sid
              | Throw e => Throw e
              end
            | Throw e => Throw e
            end)) with h1.
  change (heard (Some (transcribeAudio env2 (AudioUrl u2) sid))) with h2.
  change (heard (Some (transcribeAudio env3 (AudioUrl u3) sid))) with h3.
  rewrite ?E4. split; [|rewrite !length_app; simpl; split; lia].
  simpl. by rewrite <- ?app_assoc.
Qed.

Lemma C2_scripted_interview_history_witness :
  ∃ s4, interviews world_in_qna_shipped !! "CA1" = Some s4 ∧
        phase s4 = qna ∧
        history s4
        = [{| role := assistant; content := "What is a mutex?" |};
           {| role := assistant; content := "What is a mutex?" |}] ∧
        length (history s4) = 2%nat ∧
        (2 ≤ length (history s4) ≤ 5)%nat.
Proof.
  refine (proj2 (proj2 (proj2
    (C2_scripted_interview_history
       (env_ok 1000) env_shipped env_shipped env_shipped empty_world
       "Backend Engineer" "Design and run APIs" backend_candidate
       "https://moon.example/voice?jobRole=Backend Engineer&jobDescription=Design and run APIs"
       "CA1"
       (Some "https://rec/1") (Some "https://rec/2") (Some "https://rec/3")
       "What is a mutex?" "What is a mutex?"
       _ _ _ _)))).
  all: vm_compute; reflexivity.
Defined.

(** C2, as stated, fails. With the two files as they are (no recording
    is ever transcribed), call [CA1] is placed and the callbacks of its
    introduction and of its two answers are each answered with the next
    prompt; the session reaches [qna] with 2 history entries, the two
    questions, not 6. *)
Lemma C2_shipped_run_has_two_entries :
  as_shipped env_shipped ∧
  all_answered
    [(env_shipped, ProcessIntro "CA1" (Some "https://rec/1"));
     (env_shipped, ProcessAnswer1 "CA1" (Some "https://rec/2"));
     (env_shipped, ProcessAnswer2 "CA1" (Some "https://rec/3"))]
    world_called = true ∧
  interviews world_in_qna_shipped !! "CA1" = Some session_in_qna_shipped ∧
  phase session_in_qna_shipped = qna ∧
  length (history session_in_qna_shipped) = 2%nat ∧
  length (history session_in_qna_shipped) ≠ 6%nat.
Proof.
  split; [split; intros; eexists; reflexivity|].
  repeat split; try (vm_compute; reflexivity).
  vm_compute. discriminate.
Qed.

(** *** Failures inside a transition *)

(** C4, as the code has it. When the transcription of the inbound
    recording fails, no [user] entry is pushed, and:
    - [/process-intro] and [/process-answer1] go on to request the next
      question from the AI (the request is the last call in the log) and,
      given its text [q], push it as the only new entry and answer with
      the question and the next [<Record>];
    - [/process-answer2] answers with the Q&A invitation and its
      [<Record>], the history being as it was;
    - [/process-qna], which transcribes inside the same [try] as it
      generates, ends the call instead: apology, hangup, session deleted,
      nothing generated. *)
Theorem C4_transcription_failure env cb w sid s e :
  lookup_key cb = Some sid →
  interviews w !! sid = Some s →
  transcription env cb = Some (Throw e) →
  let out := deliver env cb w in
  match cb with
  | Voice _ _ _ => True
  | ProcessIntro _ u =>
    let req := handler_request env "Ask first technical question" s in
    trace out.2 = trace w ++ intro_attempt env sid u ++ [EvChatCompletion req] ∧
    ∀ q, chat_completions_create env req = Ok q →
      out.1 = Ok (SendXml [Say q; Play "9";
                           record_to "/process-answer1?callSid=" sid 120]) ∧
      interviews out.2 !! sid
      = Some (push_history {| role := assistant; content := q |}
                (set_phase question1 (set_recordingUrl u s)))
  | ProcessAnswer1 _ u =>
    let req := handler_request env "Ask second technical question" s in
    trace out.2 = trace w ++ [EvTranscribeAudio (AudioUrl u) sid;
                              EvChatCompletion req] ∧
    ∀ q, chat_completions_create env req = Ok q →
      out.1 = Ok (SendXml [Say q; Play "9";
                           record_to "/process-answer2?callSid=" sid 120]) ∧
      interviews out.2 !! sid
      = Some (push_history {| role := assistant; content := q |}
                (set_phase question2 (set_answer1Url u s)))
  | ProcessAnswer2 _ u =>
    out.1 = Ok (SendXml [Say qna_invitation; Play "9";
                         record_to "/process-qna?callSid=" sid 60]) ∧
    interviews out.2 !! sid = Some (set_phase qna (set_answer2Url u s))
  | ProcessQna _ u d =>
    is_hash d || falsy u = false →
    out = (Ok (SendXml [Say qna_apology; Hangup]),
           {| interviews := delete sid (interviews w);
              trace := trace w ++ [EvTranscribeAudio (AudioUrl u) sid] |})
  end.
Proof.
  intros Hk Hs Ht out. subst out.
  destruct cb as [? ? ?|k u|k u|k u|k u d]; simpl in Hk; [done|..];
    injection Hk as ->; simpl in Ht; injection Ht as Ht.
  - destruct (process_intro_spec env sid u w s Hs) as [Htr Hout].
    simpl in Hout. rewrite Ht in Hout. simpl in Hout.
    split; [exact Htr|]. intros q Hq. by rewrite Hq in Hout.
  - destruct (process_answer1_spec env sid u w s Hs) as [Htr Hout].
    simpl in Hout. rewrite Ht in Hout. simpl in Hout.
    split; [exact Htr|]. intros q Hq. by rewrite Hq in Hout.
  - destruct (process_answer2_spec env sid u w s Hs) as (_ & Hres & Hout).
    simpl in Hout. rewrite Ht in Hout. by split.
  - intros Hgo. pose proof (process_qna_spec env sid u d w s Hs Hgo) as H.
    simpl in H. by rewrite Ht in H.
Qed.

Lemma C4_transcription_failure_witness :
  let req := handler_request env_no_transcript
               "Ask second technical question" session_after_intro in
  let out := deliver env_no_transcript
               (ProcessAnswer1 "CA1" (Some "https://rec/2"))
               world_after_intro in
  trace out.2
  = trace world_after_intro
    ++ [EvTranscribeAudio (AudioUrl (Some "https://rec/2")) "CA1";
        EvChatCompletion req] ∧
  ∀ q, chat_completions_create env_no_transcript req = Ok q →
    out.1 = Ok (SendXml [Say q; Play "9";
                         record_to "/process-answer2?callSid=" "CA1" 120]) ∧
    interviews out.2 !! "CA1"
    = Some (push_history {| role := assistant; content := q |}
              (set_phase question2
                 (set_answer1Url (Some "https://rec/2") session_after_intro))).
Proof.
  apply (C4_transcription_failure env_no_transcript
           (ProcessAnswer1 "CA1" (Some "https://rec/2"))
           world_after_intro "CA1" session_after_intro
           "transcription failed").
  - reflexivity.
  - vm_compute. reflexivity.
  - reflexivity.
Defined.

(** C4, as stated, fails in [/process-qna]: call [CA1] is in [qna], the
    candidate asks a question and its transcription fails; the handler
    does not go on to another prompt, it apologises, hangs up and deletes
    the session. *)
Lemma C4_qna_transcription_failure_ends_call :
  let cb := ProcessQna "CA1" (Some "https://rec/4") None in
  let out := deliver env_no_transcript cb world_in_qna in
  is_Some (interviews world_in_qna !! "CA1") ∧
  transcription env_no_transcript cb = Some (Throw "transcription failed") ∧
  out.1 = Ok (SendXml [Say qna_apology; Hangup]) ∧
  interviews out.2 !! "CA1" = None ∧
  trace out.2
  = trace world_in_qna
    ++ [EvTranscribeAudio (AudioUrl (Some "https://rec/4")) "CA1"].
Proof.
  repeat split; try (vm_compute; reflexivity).
  exists session_in_qna. vm_compute. reflexivity.
Qed.

(** C5 at its failing input. Call [CA1] has just been placed and the
    chat-completion provider is down. In [/process-intro] the error of
    [getAiResponse] leaves the handler: no response is sent (no apology,
    no hangup) and the session stays in the store, already in
    [question1] with the introduction pushed. The same failure in
    [/process-qna] is caught: apology, hangup, session deleted. *)
Theorem C5_generation_failure_unhandled_in_intro :
  let out := deliver env_no_ai (ProcessIntro "CA1" (Some "https://rec/1"))
                     world_called in
  let out_qna := deliver env_no_ai (ProcessQna "CA1" (Some "https://rec/4") None)
                         world_in_qna in
  out.1 = Throw "503 Service Unavailable" ∧
  interviews out.2 !! "CA1"
  = Some (push_history
            {| role := user; content := "I have built REST services." |}
            (set_phase question1
               (set_recordingUrl (Some "https://rec/1") session_called))) ∧
  out_qna.1 = Ok (SendXml [Say qna_apology; Hangup]) ∧
  interviews out_qna.2 !! "CA1" = None.
Proof. repeat split; vm_compute; reflexivity. Qed.

(** C3 at its failing input. Call [CA1] has two history entries when its
    first answer arrives and a third once the answer is transcribed; the
    request for the second question carries the persona message and the
    instruction only, none of the history. *)
Theorem C3_prompt_omits_history :
  let out := deliver (env_ok 1200) (ProcessAnswer1 "CA1" (Some "https://rec/2"))
                     world_after_intro in
  history <$> interviews world_after_intro !! "CA1"
  = Some [{| role := user; content := "I have built REST services." |};
          {| role := assistant; content := "What is a mutex?" |}] ∧
  trace out.2
  = trace world_after_intro
    ++ [EvTranscribeAudio (AudioUrl (Some "https://rec/2")) "CA1";
        EvChatCompletion
          {| model := "gpt-4";
             messages :=
               [{| role := system;
                   content := "You are interviewing for Backend Engineer: Design and run APIs" |};
                {| role := user;
                   content := "Ask second technical question" |}];
             response_format := None;
             temperature := None |}].
Proof. split; vm_compute; reflexivity. Qed.

(** ** Further properties *)

(** *** [/make-call] *)

Lemma call_events_nil env r d : call_events env r d [] = [].
Proof. unfold call_events. by destruct (voice_url env r d). Qed.

(** The loop over the elements of the array, whatever it starts from:
    it stops at the first [null], throwing. *)
Lemma make_call_loop_spec env r d raw : ∀ i acc f,
  make_call_loop env r d i raw acc f
  = (if all_objects raw
     then Ok (acc ++ map (call_outcome env r d) (reached raw))
     else Throw null_phone,
     {| world := {| interviews := seeded env r d i (reached raw)
                                    (interviews (world f));
                    trace := trace (world f)
                             ++ call_events env r d (reached raw) |};
        twiml := twiml f |}).
Proof.
  induction raw as [|[c|] raw IH]; intros i acc [[m tr] tw]; simpl.
  - unfold ret. by rewrite call_events_nil, !app_nil_r.
  - unfold bind, try_catch, call, interviews_set, on_store, ret,
      candidate_phone, lift_result, call_outcome, placed_sid, placing,
      call_events in *. simpl.
    destruct (voice_url env r d) as [url|e]; simpl.
    + destruct (calls_create env (phone c) url) as [sid|e];
        simpl; rewrite IH; simpl; by rewrite <- !app_assoc.
    + rewrite IH. simpl. by rewrite <- !app_assoc.
  - unfold bind, try_catch, candidate_phone, throw. simpl.
    by rewrite call_events_nil, app_nil_r.
Qed.

(** [/make-call] on an array that is not empty. *)
Lemma make_call_spec env r d raw w :
  raw ≠ [] →
  run (make_call env r d (Some raw)) w
  = (Ok (if all_objects raw
         then SendJsonResults (map (call_outcome env r d) (reached raw))
         else SendJsonFailure 500 "Call processing failed"
                (failure_details env null_phone)),
     {| interviews := seeded env r d 0 (reached raw) (interviews w);
        trace := trace w ++ call_events env r d (reached raw) |}).
Proof.
  intros Hne. destruct raw as [|c raw]; [done|].
  unfold run, make_call, try_catch, bind, ret, failure_details.
  rewrite make_call_loop_spec.
  by destruct (all_objects (c :: raw)).
Qed.

(** An array of objects is reached to its end. *)
Lemma reached_objects cs : reached (Some <$> cs) = cs.
Proof.
  induction cs as [|c cs IH]; [done|].
  change (c :: reached (Some <$> cs) = c :: cs). by f_equal.
Qed.

Lemma reached_all_objects raw :
  all_objects raw = true → Some <$> reached raw = raw.
Proof.
  induction raw as [|[c|] raw IH]; simpl; intros H; try done.
  change (Some c :: (Some <$> reached raw) = Some c :: raw).
  f_equal. by apply IH.
Qed.

(** What [seeded] holds under a key no candidate of [cs] was given. *)
Lemma seeded_lookup_other env r d cs : ∀ i m sid,
  Some sid ∉ map (placed_sid env r d) cs →
  seeded env r d i cs m !! sid = m !! sid.
Proof.
  induction cs as [|c cs IH]; intros i m sid Hnot; simpl; [done|].
  simpl in Hnot. apply not_elem_of_cons in Hnot as [Hc Hcs].
  rewrite IH by done.
  destruct (placed_sid env r d c) as [k|]; [|done].
  apply lookup_insert_ne. congruence.
Qed.

Lemma seeded_dom env r d cs : ∀ i m,
  dom (seeded env r d i cs m)
  = dom m ∪ list_to_set (omap (placed_sid env r d) cs).
Proof.
  induction cs as [|c cs IH]; intros i m; simpl.
  - by rewrite union_empty_r_L.
  - rewrite IH. destruct (placed_sid env r d c) as [k|]; simpl; [|done].
    by rewrite dom_insert_L, (comm_L (∪) {[k]} (dom m)), (assoc_L (∪)).
Qed.

(** X1: [/make-call] without candidates (no array, or an empty one)
    answers [400 Invalid candidates data]; no call is placed and the
    store is as it was. *)
Theorem X1_make_call_rejects_empty env r d cands w :
  cands = None ∨ cands = Some [] →
  run (make_call env r d cands) w
  = (Ok (SendJsonError 400 "Invalid candidates data"), w).
Proof.
  intros [-> | ->]; destruct w; reflexivity.
Qed.

Lemma X1_make_call_rejects_empty_witness :
  run (make_call (env_ok 1000) "Backend Engineer" "Design and run APIs"
                 (Some [])) world_in_qna
  = (Ok (SendJsonError 400 "Invalid candidates data"), world_in_qna).
Proof.
  apply (X1_make_call_rejects_empty (env_ok 1000) "Backend Engineer"
           "Design and run APIs" (Some []) world_in_qna).
  right. reflexivity.
Defined.

(** X2: the answer of [/make-call] to an array that is not empty. When
    every element is an object, the answer holds one result per
    candidate, in the order of the request and with the phone of each; a
    result reports success, with the call identifier, exactly when that
    candidate's own call was placed (the URL was encoded and the
    provider accepted the call), whatever happened to the others. When
    an element is [null], reading its phone throws in the [try] and
    again in the [catch] of the loop: the answer is [500 Call processing
    failed] for the whole request, the results of the candidates handled
    before being dropped from it. *)
Theorem X2_make_call_results_or_500 env r d raw w :
  raw ≠ [] →
  let response := (run (make_call env r d (Some raw)) w).1 in
  (all_objects raw = true →
   ∃ results,
     response = Ok (SendJsonResults results) ∧
     map (fun res => Some {| phone := res_phone res |}) results = raw ∧
     ∀ i c, raw !! i = Some (Some c) →
       ∃ res, results !! i = Some res ∧
         callSid res = placed_sid env r d c ∧
         success res = bool_decide (is_Some (placed_sid env r d c))) ∧
  (all_objects raw = false →
   response
   = Ok (SendJsonFailure 500 "Call processing failed"
           (if bool_decide (NODE_ENV env = Some "development")
            then Some null_phone else None))).
Proof.
  intros Hne response. subst response.
  rewrite (make_call_spec _ _ _ _ _ Hne). simpl. split; intros Hall;
    rewrite Hall; [|done].
  exists (map (call_outcome env r d) (reached raw)).
  split; [done|]. split.
  - rewrite <- (reached_all_objects raw Hall) at 2.
    rewrite map_map. apply map_ext. intros [ph].
    unfold call_outcome. by destruct (placing env r d _).
  - intros i c Hi. exists (call_outcome env r d c). split.
    + rewrite <- (reached_all_objects raw Hall) in Hi.
      rewrite list_lookup_fmap in Hi.
      rewrite list_lookup_fmap.
      destruct (reached raw !! i) as [c'|]; simpl in *; [|done].
      by injection Hi as ->.
    + unfold call_outcome, placed_sid.
      destruct (placing env r d c); simpl; split; done.
Qed.

Lemma X2_make_call_results_or_500_witness :
  let response :=
    (run (make_call env_one_busy "Backend Engineer" "Design and run APIs"
                    (Some request_with_null)) empty_world).1 in
  (all_objects request_with_null = true →
   ∃ results,
     response = Ok (SendJsonResults results) ∧
     map (fun res => Some {| phone := res_phone res |}) results
     = request_with_null ∧
     ∀ i c, request_with_null !! i = Some (Some c) →
       ∃ res, results !! i = Some res ∧
         callSid res
         = placed_sid env_one_busy "Backend Engineer" "Design and run APIs" c ∧
         success res
         = bool_decide
             (is_Some (placed_sid env_one_busy "Backend Engineer"
                                  "Design and run APIs" c))) ∧
  (all_objects request_with_null = false →
   response
   = Ok (SendJsonFailure 500 "Call processing failed"
           (if bool_decide (NODE_ENV env_one_busy = Some "development")
            then Some null_phone else None))).
Proof.
  apply (X2_make_call_results_or_500 env_one_busy
           "Backend Engineer" "Design and run APIs" request_with_null
           empty_world).
  discriminate.
Defined.

(** X3: the outbound calls of [/make-call]. The telephony provider is
    asked for one call for each candidate that comes before the first
    [null] element of the array (for each candidate when there is
    none), in the order of the request, to the candidate's phone and
    with the [/voice] URL carrying the job role and description; a
    failed call is not retried, no call is asked for an element that
    follows a [null], and none at all when the URL cannot be encoded. *)
Theorem X3_make_call_outbound_calls env r d raw w :
  raw ≠ [] →
  trace (run (make_call env r d (Some raw)) w).2
  = trace w
    ++ match voice_url env r d with
       | Ok url => map (fun c => EvCallsCreate (phone c) url) (reached raw)
       | Throw _ => []
       end.
Proof.
  intros Hne. by rewrite (make_call_spec _ _ _ _ _ Hne).
Qed.

Lemma X3_make_call_outbound_calls_witness :
  trace (run (make_call env_one_busy "Backend Engineer" "Design and run APIs"
                        (Some request_with_null)) empty_world).2
  = trace empty_world
    ++ match voice_url env_one_busy "Backend Engineer" "Design and run APIs"
       with
       | Ok url =>
         map (fun c => EvCallsCreate (phone c) url) (reached request_with_null)
       | Throw _ => []
       end.
Proof.
  apply (X3_make_call_outbound_calls env_one_busy
           "Backend Engineer" "Design and run APIs" request_with_null
           empty_world).
  discriminate.
Defined.

(** X4: after [/make-call] the store holds the sessions it held plus one
    under the identifier of every call that was placed, and no other: a
    candidate whose call fails gets no session, nor does an element the
    loop does not reach. *)
Theorem X4_make_call_sessions_for_placed_calls_only env r d raw w :
  raw ≠ [] →
  dom (interviews (run (make_call env r d (Some raw)) w).2)
  = dom (interviews w)
    ∪ list_to_set (omap (placed_sid env r d) (reached raw)).
Proof.
  intros Hne. rewrite (make_call_spec _ _ _ _ _ Hne). simpl.
  apply seeded_dom.
Qed.

Lemma X4_make_call_sessions_for_placed_calls_only_witness :
  dom (interviews
         (run (make_call env_one_busy "Backend Engineer" "Design and run APIs"
                         (Some (Some <$> two_candidates))) empty_world).2)
  = dom (interviews empty_world)
    ∪ list_to_set (omap (placed_sid env_one_busy "Backend Engineer"
                                    "Design and run APIs")
                        (reached (Some <$> two_candidates))).
Proof.
  apply (X4_make_call_sessions_for_placed_calls_only env_one_busy
           "Backend Engineer" "Design and run APIs"
           (Some <$> two_candidates) empty_world).
  discriminate.
Defined.

Lemma seeded_lookup_placed env r d cs : ∀ k m i c sid,
  cs !! i = Some c →
  placed_sid env r d c = Some sid →
  (∀ j c', (i < j)%nat → cs !! j = Some c' →
           placed_sid env r d c' ≠ Some sid) →
  seeded env r d k cs m !! sid
  = Some (new_session r d (phone c) (Date_now env (k + i))).
Proof.
  induction cs as [|c0 cs IH]; intros k m i c sid Hi Hp Hlater; [done|].
  destruct i as [|i]; simpl in *.
  - injection Hi as ->. rewrite Hp.
    rewrite seeded_lookup_other.
    + rewrite lookup_insert_eq. by rewrite Nat.add_0_r.
    + intros Hin. apply list_elem_of_fmap in Hin as (c' & Hc' & Hin).
      apply list_elem_of_lookup in Hin as [j Hj].
      apply (Hlater (S j) c'); [lia | done | done].
  - rewrite (IH (S k) _ i c sid Hi Hp).
    + do 3 f_equal. lia.
    + intros j c' Hj Hc'. apply (Hlater (S j) c'); [lia | done].
Qed.

(** X5: the session of a placed call is a new one. If the call of the
    [i]-th candidate is placed under [sid], that candidate being among
    those the loop reaches, and no later candidate of the request is
    given the same identifier, then after [/make-call] the store holds
    under [sid] a session in phase [introduction], with an empty
    history, the role and description of the request and the phone of
    that candidate, whatever the store held under [sid] and whatever
    became of the other candidates. *)
Theorem X5_make_call_seeds_new_session env r d raw w i c sid :
  reached raw !! i = Some c →
  placed_sid env r d c = Some sid →
  (∀ j c', (i < j)%nat → reached raw !! j = Some c' →
           placed_sid env r d c' ≠ Some sid) →
  interviews (run (make_call env r d (Some raw)) w).2 !! sid
  = Some {| jobRole := r; jobDescription := d; history := [];
            phase := introduction; candidatePhone := phone c;
            lastActivity := Date_now env i;
            recordingUrl := None; answer1Url := None; answer2Url := None |}.
Proof.
  intros Hi Hp Hlater.
  assert (Hne : raw ≠ []) by (intros ->; done).
  rewrite (make_call_spec _ _ _ _ _ Hne). simpl.
  by rewrite (seeded_lookup_placed env r d _ 0 _ i c sid Hi Hp Hlater).
Qed.

Lemma X5_make_call_seeds_new_session_witness :
  interviews
    (run (make_call env_one_busy "Backend Engineer" "Design and run APIs"
                    (Some (Some <$> two_candidates))) world_in_qna).2 !! "CA1"
  = Some {| jobRole := "Backend Engineer";
            jobDescription := "Design and run APIs"; history := [];
            phase := introduction; candidatePhone := "+15550100";
            lastActivity := 1001;
            recordingUrl := None; answer1Url := None; answer2Url := None |}.
Proof.
  apply (X5_make_call_seeds_new_session env_one_busy "Backend Engineer"
           "Design and run APIs" (Some <$> two_candidates) world_in_qna 1
           backend_candidate "CA1").
  - reflexivity.
  - reflexivity.
  - intros j c' Hj Hc'. destruct j as [|[|j]]; [lia | lia | discriminate].
Defined.

(** *** Callbacks and the store *)

(** A callback addressed to another call, or to none, leaves the entry
    of [sid] as it is, present or absent. *)
Lemma deliver_other env cb w sid :
  lookup_key cb ≠ Some sid →
  interviews (deliver env cb w).2 !! sid = interviews w !! sid.
Proof.
  intros Hk. destruct (interviews w !! sid) as [s|] eqn:Hs.
  - pose proof (deliver_session env cb w sid s Hs) as H.
    destruct (interviews (deliver env cb w).2 !! sid) as [s'|].
    + destruct H as [_ H]. by rewrite (H Hk).
    + destruct H as (u & d & ->). by destruct Hk.
  - by apply deliver_absent.
Qed.

(** Over a sequence of callbacks none of which carries [sid], as long as
    the process is up. *)
Lemma deliver_all_other cbs : ∀ w sid,
  Forall (fun ec : Env * Callback => lookup_key ec.2 ≠ Some sid) cbs →
  interviews (deliver_all cbs w) !! sid
  = if all_answered cbs w then interviews w !! sid else None.
Proof.
  induction cbs as [|[env cb] cbs IH]; intros w sid Hall; simpl; [done|].
  apply Forall_cons in Hall as [Hcb Hall].
  pose proof (deliver_other env cb w sid Hcb) as Hstep.
  destruct (deliver env cb w) as [[r|e] w']; simpl in *.
  - rewrite IH by done. by rewrite Hstep.
  - apply lookup_empty.
Qed.

(** X6: callbacks only touch the session of the call they name. Over a
    sequence of callbacks none of which carries the identifier [sid],
    and all of which are answered, the store holds under [sid] exactly
    what it held before, be it a session or nothing. When a handler of
    the sequence rejects, the process exits and the entry is lost with
    the rest of the store. *)
Theorem X6_callbacks_touch_only_their_call cbs w sid :
  Forall (fun ec : Env * Callback => lookup_key ec.2 ≠ Some sid) cbs →
  interviews (deliver_all cbs w) !! sid
  = if all_answered cbs w then interviews w !! sid else None.
Proof.
  intros Hall. revert w.
  induction Hall as [|[env cb] cbs Hcb _ IH]; intros w; simpl; [done|].
  pose proof (deliver_other env cb w sid Hcb) as Hstep.
  destruct (deliver env cb w) as [[r|e] w']; simpl in *.
  - by rewrite IH, Hstep.
  - apply lookup_empty.
Qed.

Lemma X6_callbacks_touch_only_their_call_witness :
  interviews
    (deliver_all
       [(env_no_transcript, ProcessAnswer1 "CA1" (Some "https://rec/2"));
        (env_ok 1500, ProcessQna "CA1" None None)]
       world_two_calls) !! "CA2"
  = if all_answered
         [(env_no_transcript, ProcessAnswer1 "CA1" (Some "https://rec/2"));
          (env_ok 1500, ProcessQna "CA1" None None)]
         world_two_calls
    then interviews world_two_calls !! "CA2" else None.
Proof.
  apply (X6_callbacks_touch_only_their_call
           [(env_no_transcript, ProcessAnswer1 "CA1" (Some "https://rec/2"));
            (env_ok 1500, ProcessQna "CA1" None None)]
           world_two_calls "CA2").
  repeat constructor; simpl; discriminate.
Defined.

(** X7: callbacks never create a session. After any sequence of
    callbacks the identifiers in the store are among those it had:
    sessions come from [/make-call] alone. *)
Theorem X7_callbacks_create_no_session cbs w :
  dom (interviews (deliver_all cbs w)) ⊆ dom (interviews w).
Proof.
  intros sid. rewrite !elem_of_dom. intros Hin.
  destruct (interviews w !! sid) as [s|] eqn:Hs; [eauto|].
  rewrite (deliver_all_absent cbs w sid Hs) in Hin. by destruct Hin.
Qed.

(** X8: only [/process-qna] ends a session. A session that is in the
    store is still there after any sequence of callbacks in which no
    [/process-qna] carries its identifier and every callback is
    answered: a failure that a handler absorbs (the download, the
    conversion, the transcription) costs no session. The only other way
    a session is lost is the exit of the process when a handler
    rejects. *)
Theorem X8_only_qna_deletes cbs w sid s :
  interviews w !! sid = Some s →
  Forall (fun ec : Env * Callback => is_qna_for sid ec.2 = false) cbs →
  all_answered cbs w = true →
  is_Some (interviews (deliver_all cbs w) !! sid).
Proof.
  intros Hs Hall. revert w s Hs.
  induction Hall as [|[env cb] cbs Hcb _ IH]; intros w s Hs Hans; simpl;
    [eauto|].
  pose proof (deliver_session env cb w sid s Hs) as H.
  simpl in Hans.
  destruct (deliver env cb w) as [[r|e] w']; simpl in *; [|done].
  destruct (interviews w' !! sid) as [s'|] eqn:E.
  - by eapply IH.
  - destruct H as (u & d & ->). simpl in Hcb.
    by rewrite bool_decide_eq_true_2 in Hcb.
Qed.

Lemma X8_only_qna_deletes_witness :
  is_Some
    (interviews
       (deliver_all
          [(env_no_transcript, ProcessAnswer1 "CA1" (Some "https://rec/2"));
           (env_ok 1500, ProcessQna "CA2" None (Some "#"))]
          world_two_calls) !! "CA1").
Proof.
  apply (X8_only_qna_deletes
           [(env_no_transcript, ProcessAnswer1 "CA1" (Some "https://rec/2"));
            (env_ok 1500, ProcessQna "CA2" None (Some "#"))]
           world_two_calls "CA1" session_in_qna).
  - vm_compute. reflexivity.
  - repeat constructor.
  - vm_compute. reflexivity.
Defined.

(** X9: the job role, the job description and the phone of the
    candidate are fixed when the session is created: a session that
    survives a sequence of callbacks carries the values it had. *)
Theorem X9_job_and_phone_never_change cbs w sid s s' :
  interviews w !! sid = Some s →
  interviews (deliver_all cbs w) !! sid = Some s' →
  jobRole s' = jobRole s ∧
  jobDescription s' = jobDescription s ∧
  candidatePhone s' = candidatePhone s.
Proof.
  intros Hs Hs'. pose proof (deliver_all_session cbs w sid s Hs) as H.
  rewrite Hs' in H. by destruct H.
Qed.

Lemma X9_job_and_phone_never_change_witness :
  jobRole session_in_qna = jobRole session_after_intro ∧
  jobDescription session_in_qna = jobDescription session_after_intro ∧
  candidatePhone session_in_qna = candidatePhone session_after_intro.
Proof.
  apply (X9_job_and_phone_never_change two_answers world_after_intro "CA1"
           session_after_intro session_in_qna).
  - vm_compute. reflexivity.
  - vm_compute. reflexivity.
Defined.

(** *** The Q&A loop *)

(** X10: a question in the Q&A loop is answered whole or not at all.
    When [/process-qna] finds the session and gets a recording and no
    [#], there are two outcomes and no other. Either the transcription
    and the generation both return: then exactly two entries are
    appended to the history, the question as [user] and the answer as
    [assistant], the phase stays as it is, and the answer is spoken,
    followed by the invitation and a [<Record>] towards [/process-qna].
    Or one of them throws: then the handler apologises and hangs up, the
    session is deleted and no other session changes. The session never
    survives with the question recorded and no answer. With the two
    files as they are the transcription always throws, so that the
    second outcome is the one a recorded question gets. *)
Theorem X10_qna_question_answered_or_call_ended env sid u d w s :
  interviews w !! sid = Some s →
  is_hash d || falsy u = false →
  let out := deliver env (ProcessQna sid u d) w in
  let ended :=
    out.1 = Ok (SendXml [Say qna_apology; Hangup]) ∧
    interviews out.2 = delete sid (interviews w) in
  match transcribeAudio env (AudioUrl u) sid with
  | Throw _ => ended
  | Ok question =>
    match chat_completions_create env
            (getAiResponse_request env ("Answer this question: " +:+ question)
               (jobRole s) (jobDescription s) false [])
    with
    | Throw _ => ended
    | Ok answer =>
      out.1 = Ok (SendXml [Say answer; Play "9"; Say qna_followUp; Play "9";
                           Record_ {| action := "/process-qna?callSid=" +:+ sid;
                                      maxLength := 60; finishOnKey := "#";
                                      playBeep := true; timeout := 5 |}]) ∧
      ∃ s', interviews out.2 !! sid = Some s' ∧
            history s'
            = history s ++ [{| role := user; content := question |};
                            {| role := assistant; content := answer |}] ∧
            phase s' = phase s
    end
  end ∧
  (as_shipped env → ended).
Proof.
  intros Hs Hgo out ended.
  pose proof (process_qna_spec env sid u d w s Hs Hgo) as H.
  simpl in H. unfold handler_request in H. fold out in H.
  assert (Hmain :
    match transcribeAudio env (AudioUrl u) sid with
    | Throw _ => ended
    | Ok question =>
      match chat_completions_create env
              (getAiResponse_request env
                 ("Answer this question: " +:+ question)
                 (jobRole s) (jobDescription s) false [])
      with
      | Throw _ => ended
      | Ok answer =>
        out.1 = Ok (SendXml [Say answer; Play "9"; Say qna_followUp;
                             Play "9";
                             Record_ {| action := "/process-qna?callSid="
                                                  +:+ sid;
                                        maxLength := 60; finishOnKey := "#";
                                        playBeep := true; timeout := 5 |}]) ∧
        ∃ s', interviews out.2 !! sid = Some s' ∧
              history s'
              = history s ++ [{| role := user; content := question |};
                              {| role := assistant; content := answer |}] ∧
              phase s' = phase s
      end
    end).
  { subst ended.
    destruct (transcribeAudio env (AudioUrl u) sid) as [question|e].
    - destruct (chat_completions_create env _) as [answer|e].
      + destruct H as (Hres & Hst & _). split; [exact Hres|].
        eexists. split; [exact Hst|]. simpl. by rewrite <- app_assoc.
      + by rewrite H.
    - by rewrite H. }
  split; [exact Hmain|].
  intros [_ Hship]. destruct (Hship (AudioUrl u) sid) as [e He].
  by rewrite He in Hmain.
Qed.

Lemma X10_qna_question_answered_or_call_ended_witness :
  let out := deliver env_shipped
               (ProcessQna "CA1" (Some "https://rec/4") None)
               world_in_qna_shipped in
  let ended :=
    out.1 = Ok (SendXml [Say qna_apology; Hangup]) ∧
    interviews out.2 = delete "CA1" (interviews world_in_qna_shipped) in
  ended ∧ (as_shipped env_shipped → ended).
Proof.
  apply (X10_qna_question_answered_or_call_ended env_shipped "CA1"
           (Some "https://rec/4") None world_in_qna_shipped
           session_in_qna_shipped).
  - vm_compute. reflexivity.
  - reflexivity.
Defined.

(** X11: silence ends the interview. When [/process-qna] finds the
    session and the callback carries no recording ([RecordingUrl] absent
    or empty), whatever the digits, the answer is the closing remark and
    a hangup, the session is deleted, and no call leaves the process. *)
Theorem X11_qna_silence_ends_call env sid u d w s :
  interviews w !! sid = Some s →
  u = None ∨ u = Some "" →
  deliver env (ProcessQna sid u d) w
  = (Ok (SendXml [Say closing_remark; Hangup]),
     {| interviews := delete sid (interviews w); trace := trace w |}).
Proof.
  intros Hs Hu. unfold_handler. rewrite Hs. simpl.
  assert (Hf : falsy u = true) by (by destruct Hu as [-> | ->]).
  by rewrite Hf, orb_true_r.
Qed.

Lemma X11_qna_silence_ends_call_witness :
  deliver env_no_ai (ProcessQna "CA1" (Some "") (Some "5")) world_in_qna
  = (Ok (SendXml [Say closing_remark; Hangup]),
     {| interviews := delete "CA1" (interviews world_in_qna);
        trace := trace world_in_qna |}).
Proof.
  apply (X11_qna_silence_ends_call env_no_ai "CA1" (Some "") (Some "5")
           world_in_qna session_in_qna).
  - vm_compute. reflexivity.
  - right. reflexivity.
Defined.

(** *** What a handler can and cannot do *)

(** X12: a handler rejects only when the generation of a question
    fails. If a delivered callback ends in an exception, the callback is
    [/process-intro] or [/process-answer1] for a session of the store,
    the exception is the one thrown by the chat-completion request of
    that handler, and the session is still in the store: failures of
    the download, of the conversion and of the transcription never leave
    a handler, and [/voice], [/process-answer2] and [/process-qna]
    always answer. *)
Theorem X12_handler_rejects_only_on_generation_failure env cb w e :
  (deliver env cb w).1 = Throw e →
  ∃ sid s u text,
    interviews w !! sid = Some s ∧
    (cb = ProcessIntro sid u ∧ text = "Ask first technical question" ∨
     cb = ProcessAnswer1 sid u ∧ text = "Ask second technical question") ∧
    chat_completions_create env
      (getAiResponse_request env text (jobRole s) (jobDescription s) false [])
    = Throw e ∧
    is_Some (interviews (deliver env cb w).2 !! sid).
Proof.
  destruct cb as [? ? ?|k u|k u|k u|k u d].
  - unfold_handler. discriminate.
  - destruct (interviews w !! k) as [s|] eqn:Hs.
    + destruct (process_intro_spec env k u w s Hs) as [_ H]. simpl in H.
      unfold handler_request in H.
      destruct (chat_completions_create env _) as [q|e'] eqn:Hq.
      * destruct H as [-> _]. discriminate.
      * destruct H as [-> H]. intros [= ->].
        exists k, s, u, "Ask first technical question". rewrite H. eauto 6.
    + unfold_handler. rewrite Hs. discriminate.
  - destruct (interviews w !! k) as [s|] eqn:Hs.
    + destruct (process_answer1_spec env k u w s Hs) as [_ H]. simpl in H.
      unfold handler_request in H.
      destruct (chat_completions_create env _) as [q|e'] eqn:Hq.
      * destruct H as [-> _]. discriminate.
      * destruct H as [-> H]. intros [= ->].
        exists k, s, u, "Ask second technical question". rewrite H. eauto 6.
    + unfold_handler. rewrite Hs. discriminate.
  - unfold_handler. split_outcomes; discriminate.
  - unfold_handler. split_outcomes; discriminate.
Qed.

Lemma X12_handler_rejects_only_on_generation_failure_witness :
  ∃ sid s u text,
    interviews world_after_intro !! sid = Some s ∧
    (ProcessAnswer1 "CA1" (Some "https://rec/2") = ProcessIntro sid u ∧
     text = "Ask first technical question" ∨
     ProcessAnswer1 "CA1" (Some "https://rec/2") = ProcessAnswer1 sid u ∧
     text = "Ask second technical question") ∧
    chat_completions_create env_no_ai
      (getAiResponse_request env_no_ai text (jobRole s) (jobDescription s)
         false [])
    = Throw "503 Service Unavailable" ∧
    is_Some (interviews
               (deliver env_no_ai (ProcessAnswer1 "CA1" (Some "https://rec/2"))
                        world_after_intro).2 !! sid).
Proof.
  apply (X12_handler_rejects_only_on_generation_failure env_no_ai
           (ProcessAnswer1 "CA1" (Some "https://rec/2")) world_after_intro
           "503 Service Unavailable").
  vm_compute. reflexivity.
Defined.

(** Closes the description of a turn once the two lists are chosen. *)
Ltac one_turn :=
  simpl; rewrite ?app_nil_r;
  split; [reflexivity|];
  split; first [ by left | right; by eexists ].

(** X13: what one callback adds to a history. A session that is still
    in the store after a callback has its former history followed by at
    most one [user] entry and then at most one [assistant] entry; a
    handler never pushes more than two entries, never an [assistant]
    entry before the [user] entry of the same turn, and never a [system]
    entry. *)
Theorem X13_callback_appends_at_most_one_turn env cb w sid s s' :
  interviews w !! sid = Some s →
  interviews (deliver env cb w).2 !! sid = Some s' →
  ∃ us ans,
    history s' = history s ++ us ++ ans ∧
    (us = [] ∨ ∃ t, us = [{| role := user; content := t |}]) ∧
    (ans = [] ∨ ∃ q, ans = [{| role := assistant; content := q |}]).
Proof.
  intros Hs. destruct cb as [? ? ?|k u|k u|k u|k u d].
  1: { unfold_handler. rewrite Hs. intros [= <-]. exists [], [].
       rewrite !app_nil_r. eauto. }
  all: destruct (decide (k = sid)) as [->|Hne];
    [ | rewrite deliver_other by (simpl; congruence);
        rewrite Hs; intros [= <-]; exists [], [];
        rewrite !app_nil_r; by eauto ].
  all: unfold_handler; split_outcomes; intros [= <-]; simpl.
  all: try (rewrite <- app_assoc; simpl).
  all: first
    [ solve [exists [], []; one_turn]
    | solve [eexists [_], []; one_turn]
    | solve [eexists [], [_]; one_turn]
    | solve [eexists [_], [_]; one_turn] ].
Qed.

Lemma X13_callback_appends_at_most_one_turn_witness :
  ∃ us ans,
    history session_after_intro = history session_called ++ us ++ ans ∧
    (us = [] ∨ ∃ t, us = [{| role := user; content := t |}]) ∧
    (ans = [] ∨ ∃ q, ans = [{| role := assistant; content := q |}]).
Proof.
  apply (X13_callback_appends_at_most_one_turn (env_ok 1100)
           (ProcessIntro "CA1" (Some "https://rec/1")) world_called "CA1"
           session_called session_after_intro).
  - vm_compute. reflexivity.
  - vm_compute. reflexivity.
Defined.

(** Proves that the verbs of a list are sentences and the tone. *)
Ltac speech_only :=
  repeat (apply Forall_cons; split;
          [ first [ left; by eexists | by right ] | ]);
  apply Forall_nil_2.

(** X14: every TwiML answer either hands the call over or ends it. If a
    handler answers with TwiML, then either the document ends with a
    [<Record>] whose action is the route of the next step with the same
    call identifier, with [#] as finish key, a beep, five seconds of
    silence and the length that step allows, nothing but speech and the
    tone coming before it; or the document is one sentence followed by a
    hangup, the handler is [/process-qna] and the session of the call is
    gone. A handler never hangs up and keeps the session, and never
    records without saying where the recording goes. *)
Theorem X14_twiml_chains_or_hangs_up env cb w vs :
  (deliver env cb w).1 = Ok (SendXml vs) →
  (∃ pre,
     vs = pre ++ [Record_ {| action := next_action cb;
                             maxLength := next_maxLength cb;
                             finishOnKey := "#"; playBeep := true;
                             timeout := 5 |}] ∧
     Forall (fun v => (∃ t, v = Say t) ∨ v = Play "9") pre) ∨
  (∃ sid u d text,
     cb = ProcessQna sid u d ∧
     vs = [Say text; Hangup] ∧
     interviews (deliver env cb w).2 !! sid = None).
Proof.
  destruct cb as [? ? ?|k u|k u|k u|k u d]; unfold_handler; split_outcomes.
  all: intros [= <-].
  all: first
    [ solve [left; eexists [_; _]; split; [reflexivity|]; speech_only]
    | solve [left; eexists [_; _; _; _]; split; [reflexivity|]; speech_only]
    | solve [right; do 4 eexists; split; [reflexivity|];
             split; [reflexivity|]; by lookup_store] ].
Qed.

Lemma X14_twiml_chains_or_hangs_up_witness :
  let cb := Voice "CA1" "Backend Engineer" "Design and run APIs" in
  (∃ pre,
     [Say "Hello, this is an automated interview for the Backend Engineer position. Please introduce yourself after the beep.";
      Play "9";
      Record_ {| action := "/process-intro?callSid=CA1"; maxLength := 60;
                 finishOnKey := "#"; playBeep := true; timeout := 5 |}]
     = pre ++ [Record_ {| action := next_action cb;
                          maxLength := next_maxLength cb;
                          finishOnKey := "#"; playBeep := true;
                          timeout := 5 |}] ∧
     Forall (fun v => (∃ t, v = Say t) ∨ v = Play "9") pre) ∨
  (∃ sid u d text,
     cb = ProcessQna sid u d ∧
     [Say "Hello, this is an automated interview for the Backend Engineer position. Please introduce yourself after the beep.";
      Play "9";
      Record_ {| action := "/process-intro?callSid=CA1"; maxLength := 60;
                 finishOnKey := "#"; playBeep := true; timeout := 5 |}]
     = [Say text; Hangup] ∧
     interviews (deliver (env_ok 900) cb empty_world).2 !! sid = None).
Proof.
  apply (X14_twiml_chains_or_hangs_up (env_ok 900)
           (Voice "CA1" "Backend Engineer" "Design and run APIs")
           empty_world).
  vm_compute. reflexivity.
Defined.

(** X15: the recording references. A session that is still in the store
    after [/process-intro], [/process-answer1] or [/process-answer2]
    carries the [RecordingUrl] of that callback under [recordingUrl],
    [answer1Url] or [answer2Url], whether or not the transcription and
    the generation succeeded, and its two other references are as
    before; [/voice] and [/process-qna] store no reference. *)
Theorem X15_recording_reference_stored env cb w sid s s' :
  lookup_key cb = Some sid →
  interviews w !! sid = Some s →
  interviews (deliver env cb w).2 !! sid = Some s' →
  (recordingUrl s', answer1Url s', answer2Url s')
  = match cb with
    | ProcessIntro _ u => (u, answer1Url s, answer2Url s)
    | ProcessAnswer1 _ u => (recordingUrl s, u, answer2Url s)
    | ProcessAnswer2 _ u => (recordingUrl s, answer1Url s, u)
    | Voice _ _ _ | ProcessQna _ _ _ =>
      (recordingUrl s, answer1Url s, answer2Url s)
    end.
Proof.
  intros Hk Hs. destruct cb as [? ? ?|k u|k u|k u|k u d]; simpl in Hk;
    [done|..]; injection Hk as ->.
  all: unfold_handler; split_outcomes; by intros [= <-].
Qed.

Lemma X15_recording_reference_stored_witness :
  (recordingUrl session_after_intro, answer1Url session_after_intro,
   answer2Url session_after_intro)
  = (Some "https://rec/1", answer1Url session_called,
     answer2Url session_called).
Proof.
  apply (X15_recording_reference_stored (env_ok 1100)
           (ProcessIntro "CA1" (Some "https://rec/1")) world_called "CA1"
           session_called session_after_intro).
  - reflexivity.
  - vm_compute. reflexivity.
  - vm_compute. reflexivity.
Defined.

(** X16: a handler reads nothing of the session but the job role and the
    job description. Delivered to two worlds whose sessions for the call
    agree on these two fields, and differ at will in phase, history,
    references and timestamp, a callback gets the same answer (or the
    same exception) and makes the same outside calls with the same
    arguments. *)
Theorem X16_handler_reads_only_job_fields env cb w1 w2 sid s1 s2 :
  lookup_key cb = Some sid →
  interviews w1 !! sid = Some s1 →
  interviews w2 !! sid = Some s2 →
  jobRole s1 = jobRole s2 →
  jobDescription s1 = jobDescription s2 →
  (deliver env cb w1).1 = (deliver env cb w2).1 ∧
  ∃ calls, trace (deliver env cb w1).2 = trace w1 ++ calls ∧
           trace (deliver env cb w2).2 = trace w2 ++ calls.
Proof.
  intros Hk H1 H2 Hr Hd.
  destruct cb as [? ? ?|k u|k u|k u|k u d]; simpl in Hk;
    [done|..]; injection Hk as ->.
  all: unfold_handler; rewrite H1, H2; simpl; rewrite ?Hr, ?Hd.
  all: split_outcomes; split; try done.
  all: rewrite <- ?app_assoc; try (by eexists).
  all: by (exists []; rewrite !app_nil_r).
Qed.

Lemma X16_handler_reads_only_job_fields_witness :
  (deliver (env_ok 1500) (ProcessAnswer1 "CA1" (Some "https://rec/2"))
           world_after_intro).1
  = (deliver (env_ok 1500) (ProcessAnswer1 "CA1" (Some "https://rec/2"))
             world_in_qna).1 ∧
  ∃ calls,
    trace (deliver (env_ok 1500) (ProcessAnswer1 "CA1" (Some "https://rec/2"))
                   world_after_intro).2
    = trace world_after_intro ++ calls ∧
    trace (deliver (env_ok 1500) (ProcessAnswer1 "CA1" (Some "https://rec/2"))
                   world_in_qna).2
    = trace world_in_qna ++ calls.
Proof.
  apply (X16_handler_reads_only_job_fields (env_ok 1500)
           (ProcessAnswer1 "CA1" (Some "https://rec/2"))
           world_after_intro world_in_qna "CA1"
           session_after_intro session_in_qna).
  all: vm_compute; reflexivity.
Defined.

(** X17: what is spoken is what is recorded in the history. When
    [/process-intro], [/process-answer1] or [/process-qna] answers with
    TwiML and keeps the session, the first sentence of the answer is the
    content of the last entry of the history, an [assistant] entry. *)
Theorem X17_spoken_question_is_last_entry env cb w sid s' vs :
  lookup_key cb = Some sid →
  target_phase cb ≠ Some qna →
  (deliver env cb w).1 = Ok (SendXml vs) →
  interviews (deliver env cb w).2 !! sid = Some s' →
  ∃ q rest, vs = Say q :: rest ∧
            last (history s') = Some {| role := assistant; content := q |}.
Proof.
  intros Hk Hnot.
  destruct cb as [? ? ?|k u|k u|k u|k u d]; simpl in Hk, Hnot;
    [done| | |done| ]; injection Hk as ->.
  all: unfold_handler; split_outcomes; intros [= <-]; try done.
  all: intros [= <-]; do 2 eexists; (split; [reflexivity|]); simpl.
  all: by rewrite ?last_snoc.
Qed.

Lemma X17_spoken_question_is_last_entry_witness :
  ∃ q rest,
    [Say "What is a mutex?"; Play "9";
     Record_ {| action := "/process-answer1?callSid=CA1"; maxLength := 120;
                finishOnKey := "#"; playBeep := true; timeout := 5 |}]
    = Say q :: rest ∧
    last (history session_after_intro)
    = Some {| role := assistant; content := q |}.
Proof.
  apply (X17_spoken_question_is_last_entry (env_ok 1100)
           (ProcessIntro "CA1" (Some "https://rec/1")) world_called "CA1"
           session_after_intro
           [Say "What is a mutex?"; Play "9";
            Record_ {| action := "/process-answer1?callSid=CA1";
                       maxLength := 120; finishOnKey := "#";
                       playBeep := true; timeout := 5 |}]).
  - reflexivity.
  - discriminate.
  - vm_compute. reflexivity.
  - vm_compute. reflexivity.
Defined.

(** *** [transcribeRecording] *)

Lemma includes_own_prefix s rest : includes s (s +:+ rest) = true.
Proof.
  assert (H : String.prefix s (s +:+ rest) = true).
  { induction s as [|a s IH]; simpl; [by destruct rest|].
    destruct (Ascii.ascii_dec a a); [exact IH | done]. }
  destruct s; simpl in *; [by destruct rest|]. by rewrite H.
Qed.

Lemma includes_temp_name sid t : includes sid (temp_name sid t) = true.
Proof. apply includes_own_prefix. Qed.

(** Sweeping removes the temporary file of the call along with the rest. *)
Lemma sweep_temp_name sid t files :
  sweep sid (files ∪ {[temp_name sid t]}) = sweep sid files.
Proof.
  unfold sweep. apply set_eq. intros f.
  rewrite !elem_of_filter, elem_of_union, elem_of_singleton.
  split; [|tauto]. intros [Hf [Hin| ->]]; [done|].
  by rewrite includes_temp_name in Hf.
Qed.

Lemma attempts_log_more url delayMs a k :
  attempts_log url delayMs a (S (S k))
  = EvGet a url :: EvDelay delayMs :: attempts_log url delayMs (S a) (S k).
Proof. reflexivity. Qed.

(** The requests and the pauses in a log of attempts. *)
Lemma attempts_log_gets url delayMs k : ∀ a,
  List.filter is_get (attempts_log url delayMs a k)
  = map (fun i => EvGet i url) (seq a k).
Proof.
  induction k as [|k IH]; intros a; [done|].
  destruct k as [|k]; [done|].
  rewrite attempts_log_more. cbn [List.filter is_get]. rewrite IH. done.
Qed.

Lemma attempts_log_delays url delayMs k : ∀ a,
  List.filter is_delay (attempts_log url delayMs a k)
  = replicate (k - 1) (EvDelay delayMs).
Proof.
  induction k as [|k IH]; intros a; [done|].
  destruct k as [|k]; [done|].
  rewrite attempts_log_more. cbn [List.filter is_delay]. rewrite IH.
  simpl. by rewrite Nat.sub_0_r.
Qed.

Lemma attempts_log_no_whisper url delayMs k : ∀ a,
  List.filter is_whisper (attempts_log url delayMs a k) = [].
Proof.
  induction k as [|k IH]; intros a; [done|].
  destruct k as [|k]; [done|].
  rewrite attempts_log_more. cbn [List.filter is_whisper]. by rewrite IH.
Qed.

Lemma download_more env url delayMs attempt rest :
  download env url delayMs attempt (S rest)
  = match axios_get env attempt url with
    | Ok response => (Ok (Some response), [EvGet attempt url])
    | Throw error_ =>
      match rest with
      | O => (Throw error_, [EvGet attempt url])
      | S _ =>
        let '(r, evs) := download env url delayMs (S attempt) rest in
        (r, EvGet attempt url :: EvDelay delayMs :: evs)
      end
    end.
Proof. reflexivity. Qed.

(** The retry loop: it makes [k] attempts, numbered from [attempt], with
    a pause after each but the last; it stops at the first answer, or
    with the error of the last attempt allowed. *)
Lemma download_spec env url delayMs : ∀ remaining attempt,
  ∃ k, (k ≤ remaining)%nat ∧
    (download env url delayMs attempt remaining).2
    = attempts_log url delayMs attempt k ∧
    (∀ j, (j + 1 < k)%nat →
          ∃ e, axios_get env (attempt + j) url = Throw e) ∧
    match (download env url delayMs attempt remaining).1 with
    | Ok (Some response) =>
      (1 ≤ k)%nat ∧ axios_get env (attempt + k - 1) url = Ok response
    | Ok None => remaining = 0%nat
    | Throw e =>
      k = remaining ∧ (1 ≤ k)%nat ∧
      axios_get env (attempt + k - 1) url = Throw e
    end.
Proof.
  induction remaining as [|rest IH]; intros attempt.
  - exists 0%nat. simpl. repeat split; lia.
  - rewrite download_more.
    destruct (axios_get env attempt url) as [response|e] eqn:Hget.
    + exists 1%nat. simpl. repeat split; try lia.
      by replace (attempt + 1 - 1)%nat with attempt by lia.
    + destruct rest as [|rest].
      * exists 1%nat. simpl. repeat split; try lia.
        by replace (attempt + 1 - 1)%nat with attempt by lia.
      * destruct (IH (S attempt)) as (k & Hk & Hlog & Hfail & Hres).
        destruct (download env url delayMs (S attempt) (S rest))
          as [r evs].
        cbn [fst snd] in *. subst evs.
        assert (Hk1 : (1 ≤ k)%nat).
        { destruct r as [[response|]|e']; [lia | discriminate | lia]. }
        exists (S k). split; [lia|]. split.
        { destruct k; [lia | done]. }
        split.
        { intros j Hj. destruct j as [|j].
          - rewrite Nat.add_0_r. eauto.
          - replace (attempt + S j)%nat with (S attempt + j)%nat by lia.
            apply Hfail. lia. }
        replace (attempt + S k - 1)%nat with (S attempt + k - 1)%nat by lia.
        destruct r as [[response|]|e'].
        -- destruct Hres as [_ Hres]. split; [lia | done].
        -- discriminate.
        -- destruct Hres as (-> & _ & Hres). repeat split; [lia | done].
Qed.

(** The loop when every attempt allowed fails. *)
Lemma download_exhausted env url delayMs e : ∀ rest attempt,
  (∀ i, (attempt ≤ i < attempt + rest)%nat →
        ∃ e', axios_get env i url = Throw e') →
  axios_get env (attempt + rest) url = Throw e →
  download env url delayMs attempt (S rest)
  = (Throw e, attempts_log url delayMs attempt (S rest)).
Proof.
  induction rest as [|rest IH]; intros attempt Hall Hlast;
    rewrite download_more.
  - rewrite Nat.add_0_r in Hlast. by rewrite Hlast.
  - destruct (Hall attempt) as [e' He']; [lia|]. rewrite He'.
    rewrite IH.
    + by rewrite attempts_log_more.
    + intros i Hi. apply Hall. lia.
    + by replace (S attempt + rest)%nat with (attempt + S rest)%nat by lia.
Qed.

(** X21: the retry budget of [transcribeRecording]. Whatever happens,
    the recording is requested at most [retries] times, the attempts
    being numbered from 1 without gap; a pause of [delayMs] follows each
    failed attempt but the last one made, so there are as many pauses as
    attempts less one; and the transcription provider is called at most
    once: only the download is retried. *)
Theorem X21_transcribeRecording_retry_budget env url sid retries delayMs disk :
  let evs := (transcribeRecording env url sid retries delayMs disk).2 in
  ∃ k, (k ≤ retries)%nat ∧
    List.filter is_get evs = map (fun i => EvGet i url) (seq 1 k) ∧
    List.filter is_delay evs = replicate (k - 1) (EvDelay delayMs) ∧
    (length (List.filter is_whisper evs) ≤ 1)%nat.
Proof.
  unfold transcribeRecording, transcribe_body.
  destruct (download_spec env url delayMs retries 1)
    as (k & Hk & Hlog & _ & _).
  destruct (download env url delayMs 1 retries) as [r evs0].
  cbn [fst snd] in Hlog. subst evs0.
  destruct disk as [files|]; [|destruct (mkdirSync env) as [[]|e0]].
  3: { exists 0%nat. simpl. repeat split; lia. }
  all: exists k; split; [done|].
  all: destruct r as [[response|]|e']; cbn [default fst snd].
  all: repeat match goal with
       | |- context [pipe_to_file ?e ?r ?n] => destruct (pipe_to_file e r n)
       | |- context [transcriptions_create ?e ?n] =>
         destruct (transcriptions_create e n)
       end; cbn [fst snd].
  all: rewrite !List.filter_app, attempts_log_gets, attempts_log_delays,
         attempts_log_no_whisper; simpl; rewrite ?app_nil_r.
  all: repeat split; first [ done | lia ].
Qed.

(** X22: when the download fails at every attempt allowed (at least
    one), with the directory in place, [transcribeRecording] rejects
    with the error of the last attempt, after exactly [retries] requests
    and [retries - 1] pauses; nothing is written or transcribed, and the
    files whose names include the call identifier are removed from the
    directory. *)
Theorem X22_transcribeRecording_gives_up_with_last_error
    env url sid retries delayMs files e :
  (1 ≤ retries)%nat →
  (∀ i, (1 ≤ i < retries)%nat → ∃ e', axios_get env i url = Throw e') →
  axios_get env retries url = Throw e →
  transcribeRecording env url sid retries delayMs (Some files)
  = (Rejected e, Some (sweep sid files), attempts_log url delayMs 1 retries).
Proof.
  intros Hpos Hall Hlast. destruct retries as [|rest]; [lia|].
  unfold transcribeRecording, transcribe_body.
  rewrite (download_exhausted env url delayMs e rest 1).
  - reflexivity.
  - intros i Hi. apply Hall. lia.
  - exact Hlast.
Qed.

Lemma X22_transcribeRecording_gives_up_with_last_error_witness :
  transcribeRecording (flaky 3 Finish (Ok "Hello")) "https://rec/1" "CA1"
                      default_retries default_delayMs busy_dir
  = (Rejected "ECONNRESET",
     Some (sweep "CA1" {[ "CA1_1699999990000.wav"; "CA12_1699999995000.wav";
                          "CA7_1699999999000.wav" ]}),
     attempts_log "https://rec/1" default_delayMs 1 default_retries).
Proof.
  apply (X22_transcribeRecording_gives_up_with_last_error
           (flaky 3 Finish (Ok "Hello")) "https://rec/1" "CA1"
           default_retries default_delayMs _ "ECONNRESET").
  - unfold default_retries. lia.
  - intros i Hi. exists "ECONNRESET". unfold default_retries in Hi.
    destruct i as [|[|[|i]]]; [lia | reflexivity | reflexivity | lia].
  - reflexivity.
Defined.

(** X23: on success the temporary file is gone and nothing else has
    changed. If [transcribeRecording] fulfils, the directory exists and
    holds the files it held before the call, less the one named after
    the call and the time; and the last thing the function did outside
    was to ask for the transcription of that file. *)
Theorem X23_transcribeRecording_success_removes_temp_file
    env url sid retries delayMs disk text disk' evs :
  transcribeRecording env url sid retries delayMs disk
  = (Fulfilled text, disk', evs) →
  disk' = Some (default ∅ disk ∖ {[temp_name sid (rec_Date_now env)]}) ∧
  last evs = Some (EvWhisper (temp_name sid (rec_Date_now env))) ∧
  transcriptions_create env (temp_name sid (rec_Date_now env)) = Ok text.
Proof.
  unfold transcribeRecording, transcribe_body.
  destruct (download env url delayMs 1 retries) as [r evs0].
  assert (Hset : ∀ (X : gset string) n, (X ∪ {[n]}) ∖ {[n]} = X ∖ {[n]}).
  { intros X n. apply set_eq. intros x.
    rewrite !elem_of_difference, elem_of_union, elem_of_singleton. tauto. }
  destruct disk as [files|]; [|destruct (mkdirSync env) as [[]|e0]];
    try discriminate.
  all: destruct r as [[response|]|e']; try discriminate.
  all: destruct (pipe_to_file env response _); try discriminate;
    try (destruct leaves_file; discriminate).
  all: destruct (transcriptions_create env _) as [t|e'] eqn:Hw;
    try discriminate.
  all: intros [= <- <- <-]; cbn [default].
  all: rewrite Hset, ?app_comm_cons, last_snoc; done.
Qed.

Lemma X23_transcribeRecording_success_removes_temp_file_witness :
  Some ({[ "CA1_1699999990000.wav"; "CA12_1699999995000.wav";
           "CA7_1699999999000.wav" ]} : gset string)
  = Some (default ∅ busy_dir
          ∖ {[temp_name "CA1" (rec_Date_now (flaky 2 Finish (Ok "Hello")))]}) ∧
  last [EvGet 1 "https://rec/1"; EvDelay 2000; EvGet 2 "https://rec/1";
        EvDelay 2000; EvGet 3 "https://rec/1";
        EvPipe "CA1_1700000000000.wav"; EvWhisper "CA1_1700000000000.wav"]
  = Some (EvWhisper
            (temp_name "CA1" (rec_Date_now (flaky 2 Finish (Ok "Hello"))))) ∧
  transcriptions_create (flaky 2 Finish (Ok "Hello"))
    (temp_name "CA1" (rec_Date_now (flaky 2 Finish (Ok "Hello"))))
  = Ok "Hello".
Proof.
  apply (X23_transcribeRecording_success_removes_temp_file
           (flaky 2 Finish (Ok "Hello")) "https://rec/1" "CA1"
           default_retries default_delayMs busy_dir "Hello").
  vm_compute. reflexivity.
Defined.

(** X24: on failure the directory is swept by call identifier. If
    [transcribeRecording] rejects and the directory exists, the
    directory holds afterwards exactly the files it held before the call
    whose names do not include the call identifier. The temporary file
    of this call is gone if it was written, and so are the leftovers of
    earlier or concurrent transcriptions of the same call and the files
    of any call whose identifier contains this one; all other files
    stay. *)
Theorem X24_transcribeRecording_failure_sweeps_by_call_id
    env url sid retries delayMs disk e files' evs :
  transcribeRecording env url sid retries delayMs disk
  = (Rejected e, Some files', evs) →
  files' = filter (fun f => includes sid f = false) (default ∅ disk).
Proof.
  unfold transcribeRecording, transcribe_body.
  destruct (download env url delayMs 1 retries) as [r evs0].
  fold (sweep sid (default ∅ disk)).
  destruct disk as [files|]; [|destruct (mkdirSync env) as [[]|e0]];
    try discriminate.
  all: destruct r as [[response|]|e']; try (by intros [= _ <- _]).
  all: destruct (pipe_to_file env response _) as [|e1 leaves|];
    try discriminate;
    try (destruct leaves; intros [= _ <- _]; cbn [default];
         by rewrite ?sweep_temp_name).
  all: destruct (transcriptions_create env _) as [t|e1];
    try discriminate.
  all: intros [= _ <- _]; cbn [default]; by rewrite sweep_temp_name.
Qed.

Lemma X24_transcribeRecording_failure_sweeps_by_call_id_witness :
  ({[ "CA7_1699999999000.wav" ]} : gset string)
  = filter (fun f => includes "CA1" f = false) (default ∅ busy_dir).
Proof.
  apply (X24_transcribeRecording_failure_sweeps_by_call_id
           (flaky 0 Finish (Throw "429 Too Many Requests"))
           "https://rec/1" "CA1" default_retries default_delayMs busy_dir
           "429 Too Many Requests" _
           [EvGet 1 "https://rec/1"; EvPipe "CA1_1700000000000.wav";
            EvWhisper "CA1_1700000000000.wav"]).
  vm_compute. reflexivity.
Defined.

(** X25: with [retries] equal to 0 nothing is downloaded: the loop is
    not entered, [response] stays undefined and reading its [data]
    throws; with the directory in place the function rejects with that
    error, having made no request at all. *)
Theorem X25_transcribeRecording_zero_retries env url sid delayMs files :
  transcribeRecording env url sid 0 delayMs (Some files)
  = (Rejected undefined_data, Some (sweep sid files), []).
Proof. reflexivity. Qed.

(** X26: when the directory is missing and cannot be created, the
    caller does not see the error of [mkdirSync]: the [catch] block
    reads the directory first, which throws in turn, and that second
    error is the one [transcribeRecording] rejects with. Nothing is
    downloaded. *)
Theorem X26_transcribeRecording_mkdir_error_is_masked
    env url sid retries delayMs e :
  mkdirSync env = Throw e →
  transcribeRecording env url sid retries delayMs None
  = (Rejected (readdirSync_error env), None, [EvMkdir]).
Proof.
  intros Hm. unfold transcribeRecording, transcribe_body. by rewrite Hm.
Qed.

Lemma X26_transcribeRecording_mkdir_error_is_masked_witness :
  transcribeRecording read_only_disk "https://rec/1" "CA1"
                      default_retries default_delayMs None
  = (Rejected (readdirSync_error read_only_disk), None, [EvMkdir]).
Proof.
  apply (X26_transcribeRecording_mkdir_error_is_masked read_only_disk
           "https://rec/1" "CA1" default_retries default_delayMs
           "EACCES: permission denied, mkdir").
  reflexivity.
Defined.

(** *** The AI helpers *)

(** X18: [getAiResponse] sends one chat-completion request, made of the
    persona messages, then the conversation history it was given, in
    its order (nothing when the argument is omitted), then the
    instruction as a [user] turn, in JSON mode exactly when a rating is
    requested; it hands back what the provider answers and, when the
    provider throws, throws the same error in turn. It touches neither
    the session store nor the TwiML. *)
Theorem X18_getAiResponse_prompt_and_outcome env text r d (rating : bool) h f :
  let req := {| model := "gpt-4";
                messages := getInterviewPrompt env r d ++ default [] h
                            ++ [{| role := user; content := text |}];
                response_format :=
                  if rating then Some "json_object" else None;
                temperature := None |} in
  getAiResponse env text r d rating h f
  = (chat_completions_create env req,
     {| world := {| interviews := interviews (world f);
                    trace := trace (world f) ++ [EvChatCompletion req] |};
        twiml := twiml f |}).
Proof.
  unfold getAiResponse, getAiResponse_request, try_catch, call, throw.
  simpl. rewrite <- app_assoc.
  match goal with
  | |- context [chat_completions_create env ?x] =>
    by destruct (chat_completions_create env x)
  end.
Qed.

(** X19: [getQnAResponse] never throws. It sends one request, made of
    its system message, the conversation history it was given and the
    question as a [user] turn, at temperature 0.3, and returns the
    answer of the provider; when the provider throws it returns its
    fixed sentence of thanks instead. *)
Theorem X19_getQnAResponse_never_throws env question h f :
  let req := {| model := "gpt-4";
                messages := {| role := system; content := qna_system_content |}
                            :: default [] h
                            ++ [{| role := user; content := question |}];
                response_format := None;
                temperature := Some (0.3)%Q |} in
  getQnAResponse env question h f
  = (Ok match chat_completions_create env req with
        | Ok answer => answer
        | Throw _ => qna_fallback
        end,
     {| world := {| interviews := interviews (world f);
                    trace := trace (world f) ++ [EvChatCompletion req] |};
        twiml := twiml f |}).
Proof.
  unfold getQnAResponse, getQnAResponse_request, try_catch, call, ret.
  simpl.
  match goal with
  | |- context [chat_completions_create env ?x] =>
    by destruct (chat_completions_create env x)
  end.
Qed.

(** X20: when the provider answers and the answer parses,
    [generateFinalScore] returns the parsed document as it is, without
    checking that it has the fields or the ranges of a score. Its one
    request holds the scoring instructions followed by the history, with
    no closing instruction turn, at temperature 0.2. *)
Theorem X20_generateFinalScore_returns_parsed_document
    env h r d f jsonString v :
  let req := {| model := "gpt-4";
                messages := {| role := system;
                               content := scoring_system_content r d |} :: h;
                response_format := None;
                temperature := Some (0.2)%Q |} in
  chat_completions_create env req = Ok jsonString →
  JSON_parse env jsonString = Ok v →
  generateFinalScore env h r d f
  = (Ok v,
     {| world := {| interviews := interviews (world f);
                    trace := trace (world f) ++ [EvChatCompletion req] |};
        twiml := twiml f |}).
Proof.
  intros req Hc Hp.
  unfold generateFinalScore, generateFinalScore_request, try_catch, bind,
    call, ret. simpl. fold req. by rewrite Hc, Hp.
Qed.

Lemma X20_generateFinalScore_returns_parsed_document_witness :
  generateFinalScore (env_ok 1500) (history session_in_qna)
    "Backend Engineer" "Design and run APIs"
    {| world := empty_world; twiml := [] |}
  = (Ok JNull,
     {| world :=
          {| interviews := ∅;
             trace :=
               [EvChatCompletion
                  {| model := "gpt-4";
                     messages :=
                       {| role := system;
                          content := scoring_system_content
                                       "Backend Engineer"
                                       "Design and run APIs" |}
                       :: history session_in_qna;
                     response_format := None;
                     temperature := Some (0.2)%Q |}] |};
        twiml := [] |}).
Proof.
  apply (X20_generateFinalScore_returns_parsed_document (env_ok 1500)
           (history session_in_qna) "Backend Engineer" "Design and run APIs"
           {| world := empty_world; twiml := [] |} "What is a mutex?" JNull).
  - reflexivity.
  - reflexivity.
Defined.

(** *** A whole interview *)

(** X27: an interview leaves the store as it found it. Take a store
    with no session under [sid]; place a call that is given [sid];
    deliver any callbacks of that call, in any number and order, each of
    which gets its answer (the transcriptions may fail, the generations
    may not: a handler that rejects brings the process down and the
    store with it); then deliver a [/process-qna] that ends the
    interview ([#] pressed, or no recording). The store is then equal to
    the store before the call: the session is gone and no other session
    was added, removed or changed. *)
Theorem X27_interview_leaves_store_as_found
    env0 r d c sid w0 cbs env_end u digits :
  interviews w0 !! sid = None →
  placed_sid env0 r d c = Some sid →
  Forall (fun ec : Env * Callback =>
            lookup_key ec.2 = Some sid ∨ lookup_key ec.2 = None) cbs →
  is_hash digits || falsy u = true →
  let w1 := (run (make_call env0 r d (Some [Some c])) w0).2 in
  let w2 := deliver_all cbs w1 in
  all_answered cbs w1 = true →
  interviews (deliver env_end (ProcessQna sid u digits) w2).2
  = interviews w0.
Proof.
  intros H0 Hp Hcbs Hend w1 w2 Hans. apply map_eq. intros i.
  destruct (decide (i = sid)) as [->|Hne].
  - rewrite H0. destruct (interviews w2 !! sid) as [s|] eqn:Hs.
    + unfold_handler. rewrite Hs. simpl. rewrite Hend. simpl.
      apply lookup_delete_eq.
    + by apply deliver_absent.
  - rewrite deliver_other by (simpl; congruence).
    subst w2. rewrite deliver_all_other.
    + rewrite Hans. subst w1. unfold placed_sid, placing in Hp.
      destruct (voice_url env0 r d) as [url|e] eqn:Hu; [|done].
      destruct (calls_create env0 (phone c) url) as [k|e] eqn:Hc; [|done].
      injection Hp as ->. rewrite (make_call_one _ _ _ _ _ _ _ Hu Hc). simpl.
      by apply lookup_insert_ne.
    + eapply Forall_impl; [exact Hcbs|]. intros [env cb] [H|H]; simpl in *;
        rewrite H; congruence.
Qed.

Lemma X27_interview_leaves_store_as_found_witness :
  interviews
    (deliver (env_ok 1500) (ProcessQna "CA1" None None)
       (deliver_all
          [(env_shipped, ProcessIntro "CA1" (Some "https://rec/1"));
           (env_shipped, ProcessAnswer1 "CA1" (Some "https://rec/2"));
           (env_shipped, ProcessAnswer2 "CA1" (Some "https://rec/3"))]
          (run (make_call (env_ok 1000) "Backend Engineer"
                          "Design and run APIs"
                          (Some [Some backend_candidate]))
               world_other_call).2)).2
  = interviews world_other_call.
Proof.
  refine (X27_interview_leaves_store_as_found (env_ok 1000)
           "Backend Engineer" "Design and run APIs" backend_candidate "CA1"
           world_other_call
           [(env_shipped, ProcessIntro "CA1" (Some "https://rec/1"));
            (env_shipped, ProcessAnswer1 "CA1" (Some "https://rec/2"));
            (env_shipped, ProcessAnswer2 "CA1" (Some "https://rec/3"))]
           (env_ok 1500) None None _ _ _ _ _).
  - vm_compute. reflexivity.
  - reflexivity.
  - repeat constructor.
  - reflexivity.
  - vm_compute. reflexivity.
Defined.
